(** * fdp-storage: the [File] class of src/file/file.ts

    A shallow embedding of the file-management class: its eight public
    methods are written as programs over the calls the class makes to
    the modules it imports.  Every call that the TypeScript source
    awaits (and the clock read) is an operation of a small free monad;
    the synchronous assertion helpers are pure checks that throw. *)

From Stdlib Require Import ZArith List String Bool Lia DecimalString.
From Stdlib.Strings Require Import Byte.
Import ListNotations.
Local Open Scope string_scope.
Local Open Scope list_scope.
Local Open Scope Z_scope.

Set Implicit Arguments.

(** ** Plain data *)

Definition Bytes := list byte.
Definition Reference := string.
Definition EthAddress := Bytes.

(** [Uint8Array | string], the type of the [data] argument of uploadData. *)
Inductive Payload :=
| PBytes (b : Bytes)
| PString (s : string).

(** One element of [Blocks.blocks]. *)
Record Block := mkBlock {
  name : string;
  size : Z;
  compressedSize : Z;
  reference : Reference
}.

Record Blocks := mkBlocks { blocks : list Block }.

Record DataUploadOptions := mkDataUploadOptions {
  blockSize : Z;
  contentType : string
}.

Record FileReceiveOptions := mkFileReceiveOptions {
  optName : option string
}.

Record PathInfo := mkPathInfo {
  path : string;
  filename : string
}.

Record FileMetadata := mkFileMetadata {
  version : string;
  podAddress : EthAddress;
  podName : string;
  filePath : string;
  fileName : string;
  fileSize : Z;
  metaBlockSize : Z;
  metaContentType : string;
  compression : string;
  creationTime : Z;
  accessTime : Z;
  modificationTime : Z;
  blocksReference : Reference
}.

Record UploadResult := mkUploadResult { resReference : Reference }.

Record PodShareInfo := mkPodShareInfo { pod_address : string }.

(** ** JavaScript numbers, as far as uploadData needs them

    [data.length] is a non-negative integer and [blockSize] is taken to be
    integer valued.  The quotient [data.length / blockSize] is then either
    a finite number, [Infinity] (a positive length over zero) or [NaN]
    (zero over zero); below 2^53 the double-precision quotient rounds up
    to the exact integer ceiling. *)
Inductive JsNumber :=
| JsInt (z : Z)
| JsPosInf
| JsNaN.

(** [Math.ceil(len / bs)]. *)
Definition Math_ceil_div (len bs : Z) : JsNumber :=
  if bs =? 0 then (if len =? 0 then JsNaN else JsPosInf)
  else JsInt (- ((- len) / bs)).

(** The loop test [i < blocksCount]. *)
Definition js_lt (i : Z) (n : JsNumber) : bool :=
  match n with
  | JsInt z => i <? z
  | JsPosInf => true
  | JsNaN => false
  end.

(** Index normalisation of [TypedArray.prototype.slice]: a negative index
    counts from the end, and the result is clamped to [0, len]. *)
Definition relativeIndex (len k : Z) : Z :=
  if k <? 0 then Z.max (len + k) 0 else Z.min k len.

(** [data.slice(start, end)]. *)
Definition slice (data : Bytes) (start end_ : Z) : Bytes :=
  let len := Z.of_nat (List.length data) in
  let k := relativeIndex len start in
  let final := relativeIndex len end_ in
  firstn (Z.to_nat (final - k)) (skipn (Z.to_nat k) data).

Definition byteLength (data : Bytes) : Z := Z.of_nat (List.length data).

(** ** What file.ts imports

    Types, constants and pure helpers that live in other modules of the
    repository.  The class fixes nothing about them: they are the
    interface file.ts is written against. *)
Class Imports := {
  Bee : Type;
  Connection : Type;
  DownloadOptions : Type;
  AccountData : Type;
  Wallet : Type;
  RawFileMetadata : Type;
  RawMetadata : Type;
  FileShareInfoJson : Type;
  Data : Type;
  (* field accesses of the source *)
  connection : AccountData -> Connection;
  bee : Connection -> Bee;
  downloadOptions : Connection -> option DownloadOptions;  (* connection.options?.downloadOptions *)
  privateKey : Wallet -> string;
  file_name : RawFileMetadata -> string;
  file_path : RawFileMetadata -> string;
  (* constants and pure helpers *)
  META_VERSION : string;
  stringToBytes : string -> Bytes;
  extractPathInfo : string -> PathInfo;
  generateBlockName : Z -> string;
  blocksToManifest : Blocks -> string;
  getFileMetadataRawBytes : FileMetadata -> Bytes;
  rawFileMetadataToFileMetadata : RawFileMetadata -> FileMetadata;
  combine : string -> string -> string;
  prepareEthAddress : string -> EthAddress;
  wrapBytesWithHelpers : Data -> Data;
  createFileShareInfo : RawFileMetadata -> EthAddress -> FileShareInfoJson;
  JSON_stringify : FileShareInfoJson -> string;
  (* the conditions tested by the assertion helpers *)
  isAccount : AccountData -> bool;
  isPodName : string -> bool;
  isFullPathWithName : string -> bool;
  isEncryptedReference : Reference -> bool;
  isRawFileMetadata : RawMetadata -> option RawFileMetadata;
  (* the access and modification time a re-saved record receives *)
  resaveTimes : FileMetadata -> Z * Z
}.

(** ** Errors and outcomes

    A failure is either one of the assertion helpers throwing, named by
    the helper, or a rejected promise of an awaited call, which file.ts
    never catches.  [Pending] is a run whose loop was still going when
    the fuel ran out. *)
Inductive Assertion :=
| AssertAccount
| AssertPodName
| AssertFullPathWithName
| AssertEncryptedReference
| AssertRawFileMetadata.

Inductive Error :=
| AssertionFailed (a : Assertion)
| Rejected (msg : string).

Inductive Outcome (A : Type) :=
| Ok (a : A)
| Err (e : Error)
| Pending.

Arguments Ok {A} a.
Arguments Err {A} e.
Arguments Pending {A}.

Section File.

Context `{Imports}.

Record ExtendedPodInfo := mkExtendedPodInfo {
  extPodAddress : EthAddress;
  podWallet : Wallet
}.

Record FileShareInfo := mkFileShareInfo {
  meta : RawFileMetadata;
  source_address : string
}.

Record RawMetadataWithEpoch := mkRawMetadataWithEpoch {
  metadata : RawMetadata
}.

(** ** Operations

    One constructor per imported function that file.ts awaits, plus the
    clock read.  [res] is the type of the value the call resolves to. *)
Inductive Op :=
| GetExtendedPodsListByAccountData (acc : AccountData) (pod : string)
| GetUnixTimestamp
| UploadBytes (conn : Connection) (data : Bytes)
| AddEntryToDirectory (conn : Connection) (w : Wallet) (dir entry : string) (isFile : bool)
| RemoveEntryFromDirectory (conn : Connection) (w : Wallet) (dir entry : string) (isFile : bool)
| WriteFeedData (conn : Connection) (topic : string) (data : Bytes) (key : string)
| GetRawMetadata (b : Bee) (fullPath : string) (addr : EthAddress)
| GetSharedFileInfo (b : Bee) (r : Reference)
| GetSharedPodInfo (b : Bee) (r : Reference)
| DownloadData (b : Bee) (fullPath : string) (addr : EthAddress) (o : option DownloadOptions).

Definition res (op : Op) : Type :=
  match op with
  | GetExtendedPodsListByAccountData _ _ => ExtendedPodInfo
  | GetUnixTimestamp => Z
  | UploadBytes _ _ => UploadResult
  | AddEntryToDirectory _ _ _ _ _ => unit
  | RemoveEntryFromDirectory _ _ _ _ _ => unit
  | WriteFeedData _ _ _ _ => Reference
  | GetRawMetadata _ _ _ => RawMetadataWithEpoch
  | GetSharedFileInfo _ _ => FileShareInfo
  | GetSharedPodInfo _ _ => PodShareInfo
  | DownloadData _ _ _ _ => Data
  end.

(** Kinds of calls. *)
Definition isStoreWrite (op : Op) : bool :=
  match op with UploadBytes _ _ => true | _ => false end.

Definition isFeedPublish (op : Op) : bool :=
  match op with WriteFeedData _ _ _ _ => true | _ => false end.

Definition isEntryAdd (op : Op) : bool :=
  match op with AddEntryToDirectory _ _ _ _ _ => true | _ => false end.

Definition isEntryRemoval (op : Op) : bool :=
  match op with RemoveEntryFromDirectory _ _ _ _ _ => true | _ => false end.

Definition isAccountLookup (op : Op) : bool :=
  match op with GetExtendedPodsListByAccountData _ _ => true | _ => false end.

(** ** Programs *)
Inductive Prog (A : Type) : Type :=
| Ret (a : A)
| Throw (e : Error)
| OutOfFuel
| Await (op : Op) (k : res op -> Prog A).

Arguments Ret {A} a.
Arguments Throw {A} e.
Arguments OutOfFuel {A}.
Arguments Await {A} op k.

Fixpoint bind {A B : Type} (p : Prog A) (f : A -> Prog B) : Prog B :=
  match p with
  | Ret a => f a
  | Throw e => Throw e
  | OutOfFuel => OutOfFuel
  | Await op k => Await op (fun x => bind (k x) f)
  end.

Definition await (op : Op) : Prog (res op) := Await op (fun x => Ret x).

Notation "x <- p ;; q" := (bind p (fun x => q))
  (at level 100, p at next level, right associativity).
Notation "p ;;; q" := (bind p (fun _ => q))
  (at level 100, right associativity).

Definition assertThat (a : Assertion) (ok : bool) : Prog unit :=
  if ok then Ret tt else Throw (AssertionFailed a).

Definition assertAccount (acc : AccountData) : Prog unit :=
  assertThat AssertAccount (isAccount acc).

Definition assertPodName (pod : string) : Prog unit :=
  assertThat AssertPodName (isPodName pod).

Definition assertFullPathWithName (fullPath : string) : Prog unit :=
  assertThat AssertFullPathWithName (isFullPathWithName fullPath).

Definition assertEncryptedReference (r : Reference) : Prog unit :=
  assertThat AssertEncryptedReference (isEncryptedReference r).

(** [assertRawFileMetadata] narrows the type of its argument. *)
Definition assertRawFileMetadata (m : RawMetadata) : Prog RawFileMetadata :=
  match isRawFileMetadata m with
  | Some raw => Ret raw
  | None => Throw (AssertionFailed AssertRawFileMetadata)
  end.

(** ** The class *)

Definition defaultUploadOptions : DataUploadOptions :=
  {| blockSize := 1000000; contentType := "" |}.

(** [{ ...this.defaultUploadOptions, ...options }] *)
Definition mergeOptions (options : option DataUploadOptions) : DataUploadOptions :=
  match options with
  | Some o => o
  | None => defaultUploadOptions
  end.

Definition payloadBytes (data : Payload) : Bytes :=
  match data with
  | PString s => stringToBytes s
  | PBytes b => b
  end.

Definition downloadData (acc : AccountData) (pod fullPath : string) : Prog Data :=
  assertAccount acc ;;;
  assertPodName pod ;;;
  assertFullPathWithName fullPath ;;;
  assertPodName pod ;;;
  info <- await (GetExtendedPodsListByAccountData acc pod) ;;
  await (DownloadData (bee (connection acc)) fullPath (extPodAddress info)
           (downloadOptions (connection acc))).

(** The [for] loop of uploadData: [i] is the loop counter, [acc] the
    array [blocks.blocks] built so far.  [fuel] bounds the number of
    times the body runs. *)
Fixpoint uploadBlocks (fuel : nat) (conn : Connection) (data : Bytes) (bs : Z)
    (blocksCount : JsNumber) (i : Z) (acc : list Block) : Prog (list Block) :=
  if js_lt i blocksCount then
    match fuel with
    | O => OutOfFuel
    | S fuel' =>
        let currentBlock := slice data (i * bs) ((i + 1) * bs) in
        result <- await (UploadBytes conn currentBlock) ;;
        uploadBlocks fuel' conn data bs blocksCount (i + 1)
          (acc ++ [ {| name := generateBlockName i;
                       size := byteLength currentBlock;
                       compressedSize := byteLength currentBlock;
                       reference := resReference result |} ])
    end
  else Ret acc.

Definition uploadData (fuel : nat) (acc : AccountData) (pod fullPath : string)
    (data : Payload) (options : option DataUploadOptions) : Prog FileMetadata :=
  let options := mergeOptions options in
  assertAccount acc ;;;
  assertPodName pod ;;;
  assertFullPathWithName fullPath ;;;
  assertPodName pod ;;;
  let data := payloadBytes data in
  let conn := connection acc in
  extendedInfo <- await (GetExtendedPodsListByAccountData acc pod) ;;
  let pathInfo := extractPathInfo fullPath in
  now <- await GetUnixTimestamp ;;
  let blocksCount := Math_ceil_div (byteLength data) (blockSize options) in
  bl <- uploadBlocks fuel conn data (blockSize options) blocksCount 0 [] ;;
  let manifestBytes := stringToBytes (blocksToManifest {| blocks := bl |}) in
  r <- await (UploadBytes conn manifestBytes) ;;
  let m :=
    {| version := META_VERSION;
       podAddress := extPodAddress extendedInfo;
       podName := pod;
       filePath := path pathInfo;
       fileName := filename pathInfo;
       fileSize := byteLength data;
       metaBlockSize := blockSize options;
       metaContentType := contentType options;
       compression := "";
       creationTime := now;
       accessTime := now;
       modificationTime := now;
       blocksReference := resReference r |} in
  await (AddEntryToDirectory conn (podWallet extendedInfo)
           (path pathInfo) (filename pathInfo) true) ;;;
  await (WriteFeedData conn fullPath (getFileMetadataRawBytes m)
           (privateKey (podWallet extendedInfo))) ;;;
  Ret m.

Definition delete (acc : AccountData) (pod fullPath : string) : Prog unit :=
  assertAccount acc ;;;
  assertFullPathWithName fullPath ;;;
  assertPodName pod ;;;
  let pathInfo := extractPathInfo fullPath in
  info <- await (GetExtendedPodsListByAccountData acc pod) ;;
  await (RemoveEntryFromDirectory (connection acc) (podWallet info)
           (path pathInfo) (filename pathInfo) true).

Definition share (acc : AccountData) (pod fullPath : string) : Prog Reference :=
  assertAccount acc ;;;
  assertFullPathWithName fullPath ;;;
  assertPodName pod ;;;
  let conn := connection acc in
  extendedInfo <- await (GetExtendedPodsListByAccountData acc pod) ;;
  raw <- await (GetRawMetadata (bee conn) fullPath (extPodAddress extendedInfo)) ;;
  m <- assertRawFileMetadata (metadata raw) ;;
  let data := stringToBytes
                (JSON_stringify (createFileShareInfo m (extPodAddress extendedInfo))) in
  r <- await (UploadBytes conn data) ;;
  Ret (resReference r).

Definition getSharedInfo (acc : AccountData) (r : Reference) : Prog FileShareInfo :=
  assertEncryptedReference r ;;;
  await (GetSharedFileInfo (bee (connection acc)) r).

(** Modelled from the spec: updateFileMetadata of src/file/utils, which is
    not among the sources.  It rewrites the pod, path, name and pod address
    of the record to the importing pod and keeps the content fields; the
    access and modification times may be refreshed ([resaveTimes]). *)
Definition updateFileMetadata (m : FileMetadata) (pod parentPath fname : string)
    (addr : EthAddress) : FileMetadata :=
  {| version := version m;
     podAddress := addr;
     podName := pod;
     filePath := parentPath;
     fileName := fname;
     fileSize := fileSize m;
     metaBlockSize := metaBlockSize m;
     metaContentType := metaContentType m;
     compression := compression m;
     creationTime := creationTime m;
     accessTime := fst (resaveTimes m);
     modificationTime := snd (resaveTimes m);
     blocksReference := blocksReference m |}.

(** [options?.name ?? sharedInfo.meta.file_name] *)
Definition receivedName (options : option FileReceiveOptions) (fallback : string) : string :=
  match options with
  | Some o => match optName o with Some n => n | None => fallback end
  | None => fallback
  end.

Definition saveShared (acc : AccountData) (pod parentPath : string) (r : Reference)
    (options : option FileReceiveOptions) : Prog FileMetadata :=
  assertPodName pod ;;;
  sharedInfo <- getSharedInfo acc r ;;
  let conn := connection acc in
  extendedInfo <- await (GetExtendedPodsListByAccountData acc pod) ;;
  let m := rawFileMetadataToFileMetadata (meta sharedInfo) in
  let fname := receivedName options (file_name (meta sharedInfo)) in
  let m := updateFileMetadata m pod parentPath fname (extPodAddress extendedInfo) in
  let fullPath := combine parentPath fname in
  await (AddEntryToDirectory conn (podWallet extendedInfo) parentPath fname true) ;;;
  await (WriteFeedData conn fullPath (getFileMetadataRawBytes m)
           (privateKey (podWallet extendedInfo))) ;;;
  Ret m.

Definition downloadShared (acc : AccountData) (fileReference : Reference) : Prog Data :=
  info <- getSharedInfo acc fileReference ;;
  data <- await (DownloadData (bee (connection acc))
                   (combine (file_path (meta info)) (file_name (meta info)))
                   (prepareEthAddress (source_address info))
                   (downloadOptions (connection acc))) ;;
  Ret (wrapBytesWithHelpers data).

Definition downloadFromSharedPod (acc : AccountData) (podReference : Reference)
    (fullPath : string) : Prog Data :=
  assertEncryptedReference podReference ;;;
  info <- await (GetSharedPodInfo (bee (connection acc)) podReference) ;;
  data <- await (DownloadData (bee (connection acc)) fullPath
                   (prepareEthAddress (pod_address info))
                   (downloadOptions (connection acc))) ;;
  Ret (wrapBytesWithHelpers data).

(** ** Running a program against the collaborators

    [World] is the state behind the imported calls (store, feeds,
    directory index, account, clock); [handle] answers one call, either
    rejecting it or resolving it to a value, and moves the world.  A run
    records every call together with its answer. *)
Record Event := mkEvent {
  evOp : Op;
  evAns : string + res evOp
}.

Definition answered (op : Op) (x : res op) : Event := mkEvent op (inr x).
Definition rejected (op : Op) (msg : string) : Event := mkEvent op (inl msg).

Section Run.

Variable World : Type.
Variable handle : forall op : Op, World -> (string + res op) * World.

Record Run (A : Type) := mkRun {
  outcome : Outcome A;
  final : World;
  trace : list Event
}.

Definition logged {A} (ev : Event) (r : Run A) : Run A :=
  {| outcome := outcome r; final := final r; trace := ev :: trace r |}.

Fixpoint run {A : Type} (p : Prog A) (w : World) : Run A :=
  match p with
  | Ret a => {| outcome := Ok a; final := w; trace := [] |}
  | Throw e => {| outcome := Err e; final := w; trace := [] |}
  | OutOfFuel => {| outcome := Pending; final := w; trace := [] |}
  | Await op k =>
      match handle op w with
      | (inl msg, w') =>
          {| outcome := Err (Rejected msg); final := w'; trace := [rejected op msg] |}
      | (inr x, w') => logged (answered op x) (run (k x) w')
      end
  end.

(** The run ended in a thrown assertion or a rejected call. *)
Definition failed {A} (r : Run A) : bool :=
  match outcome r with
  | Err _ => true
  | _ => false
  end.

(** A run that stopped at a failed assertion: nothing was called and the
    world is as it was. *)
Definition thrown (A : Type) (a : Assertion) (w : World) : Run A :=
  {| outcome := Err (AssertionFailed a); final := w; trace := [] |}.

(** Sequencing of runs: what [bind] does to them. *)
Definition andThen {A B} (r : Run A) (f : A -> World -> Run B) : Run B :=
  match outcome r with
  | Ok a =>
      let r' := f a (final r) in
      {| outcome := outcome r'; final := final r'; trace := trace r ++ trace r' |}
  | Err e => {| outcome := Err e; final := final r; trace := trace r |}
  | Pending => {| outcome := Pending; final := final r; trace := trace r |}
  end.

End Run.

End File.

(** ** What a run of uploadData is compared with

    The slices, descriptors and events a run of the upload loop is
    expected to produce, written once so that the statements below can
    name them. *)
Definition ceilDiv (len n : Z) : Z := - ((- len) / n).

Definition blockAt (data : Bytes) (bs i : Z) : Bytes :=
  slice data (i * bs) ((i + 1) * bs).

Fixpoint blockContents (data : Bytes) (bs i : Z) (k : nat) : list Bytes :=
  match k with
  | O => []
  | S k' => blockAt data bs i :: blockContents data bs (i + 1) k'
  end.

(** [contents] is a split of [p] into blocks of size [n]. *)
Definition splitsInto (p : Bytes) (n : Z) (contents : list Bytes) : Prop :=
  Z.of_nat (List.length contents) = ceilDiv (byteLength p) n
  /\ (forall j, (S j < List.length contents)%nat -> byteLength (nth j contents []) = n)
  /\ (contents <> [] -> 1 <= byteLength (last contents []) <= n)
  /\ List.concat contents = p.

(** Number of times the loop body still runs from counter [i];
    [None] when the loop test never becomes false. *)
Definition remaining (c : JsNumber) (i : Z) : option nat :=
  match c with
  | JsInt n => Some (Z.to_nat (n - i))
  | JsPosInf => None
  | JsNaN => Some O
  end.

Fixpoint sumSizes (bl : list Block) : Z :=
  match bl with
  | [] => 0
  | b :: rest => size b + sumSizes rest
  end.

Section Expected.

Context `{Imports}.

Definition descriptor (data : Bytes) (bs i : Z) (r : Reference) : Block :=
  {| name := generateBlockName i;
     size := byteLength (blockAt data bs i);
     compressedSize := byteLength (blockAt data bs i);
     reference := r |}.

Fixpoint descriptors (data : Bytes) (bs i : Z) (refs : list Reference) : list Block :=
  match refs with
  | [] => []
  | r :: rs => descriptor data bs i r :: descriptors data bs (i + 1) rs
  end.

Fixpoint blockEvents (conn : Connection) (data : Bytes) (bs i : Z)
    (refs : list Reference) : list Event :=
  match refs with
  | [] => []
  | r :: rs =>
      answered (UploadBytes conn (blockAt data bs i)) {| resReference := r |}
      :: blockEvents conn data bs (i + 1) rs
  end.

Definition manifestOf (bl : list Block) : Bytes :=
  stringToBytes (blocksToManifest {| blocks := bl |}).

Definition uploadedMetadata (pod fullPath : string) (p : Bytes) (o : DataUploadOptions)
    (info : ExtendedPodInfo) (now : Z) (mref : Reference) : FileMetadata :=
  {| version := META_VERSION;
     podAddress := extPodAddress info;
     podName := pod;
     filePath := path (extractPathInfo fullPath);
     fileName := filename (extractPathInfo fullPath);
     fileSize := byteLength p;
     metaBlockSize := blockSize o;
     metaContentType := contentType o;
     compression := "";
     creationTime := now;
     accessTime := now;
     modificationTime := now;
     blocksReference := mref |}.

(** The three calls that close an upload: manifest, directory entry, feed. *)
Definition closingEvents (acc : AccountData) (fullPath : string)
    (info : ExtendedPodInfo) (bl : list Block) (m : FileMetadata)
    (fref : Reference) : list Event :=
  [ answered (UploadBytes (connection acc) (manifestOf bl))
      {| resReference := blocksReference m |};
    answered (AddEntryToDirectory (connection acc) (podWallet info)
                (path (extractPathInfo fullPath)) (filename (extractPathInfo fullPath)) true) tt;
    answered (WriteFeedData (connection acc) fullPath (getFileMetadataRawBytes m)
                (privateKey (podWallet info))) fref ].

(** The whole trace of a completed upload, given the answers received. *)
Definition uploadEvents (acc : AccountData) (pod fullPath : string) (p : Bytes)
    (o : DataUploadOptions) (info : ExtendedPodInfo) (now : Z)
    (refs : list Reference) (mref fref : Reference) : list Event :=
  [ answered (GetExtendedPodsListByAccountData acc pod) info;
    answered GetUnixTimestamp now ]
  ++ blockEvents (connection acc) p (blockSize o) 0 refs
  ++ closingEvents acc fullPath info (descriptors p (blockSize o) 0 refs)
       (uploadedMetadata pod fullPath p o info now mref) fref.

(** The payloads written to the content-addressed store, in call order. *)
Fixpoint storeWrites (tr : list Event) : list Bytes :=
  match tr with
  | [] => []
  | ev :: rest =>
      match evOp ev with
      | UploadBytes _ d => d :: storeWrites rest
      | _ => storeWrites rest
      end
  end.

(** Number of calls in a trace that satisfy [f]. *)
Definition callsMade (f : Op -> bool) (tr : list Event) : nat :=
  List.length (filter (fun ev => f (evOp ev)) tr).

(** *** The order of the remote steps, as an acceptor

    [n] is the number of blocks ([None]: the loop never ends).  A trace
    is in order when [follow] accepts its calls from [Started]. *)
Inductive Phase :=
| Started
| PodResolved
| Uploading (k : nat)
| ManifestStored
| EntryRegistered
| FeedPublished.

Definition advance (n : option nat) (ph : Phase) (op : Op) : option Phase :=
  match ph, op with
  | Started, GetExtendedPodsListByAccountData _ _ => Some PodResolved
  | PodResolved, GetUnixTimestamp => Some (Uploading O)
  | Uploading k, UploadBytes _ _ =>
      match n with
      | Some n' => if (k <? n')%nat then Some (Uploading (S k)) else Some ManifestStored
      | None => Some (Uploading (S k))
      end
  | ManifestStored, AddEntryToDirectory _ _ _ _ _ => Some EntryRegistered
  | EntryRegistered, WriteFeedData _ _ _ _ => Some FeedPublished
  | _, _ => None
  end.

Fixpoint follow (n : option nat) (ph : Phase) (tr : list Event) : option Phase :=
  match tr with
  | [] => Some ph
  | ev :: rest =>
      match advance n ph (evOp ev) with
      | Some ph' => follow n ph' rest
      | None => None
      end
  end.

(** Calls that change the store, a feed or the directory index. *)
Definition isWrite (op : Op) : bool :=
  isStoreWrite op || isFeedPublish op || isEntryAdd op || isEntryRemoval op.

(** The call of an event was answered, not rejected. *)
Definition isAnswered (ev : Event) : bool :=
  match evAns ev with
  | inr _ => true
  | inl _ => false
  end.

(** A directory entry was registered, a feed was published. *)
Definition registered (tr : list Event) : bool :=
  existsb (fun ev => isEntryAdd (evOp ev) && isAnswered ev) tr.

Definition published (tr : list Event) : bool :=
  existsb (fun ev => isFeedPublish (evOp ev) && isAnswered ev) tr.

End Expected.

(** ** An in-memory instance of the imports and of the collaborators

    Used to run the class on concrete inputs. *)
Module Mem.

Local Open Scope string_scope.

Definition decimal (z : Z) : string :=
  DecimalString.NilZero.string_of_int (Z.to_int z).

Definition imports : Imports :=
  {| Bee := unit;
     Connection := unit;
     DownloadOptions := unit;
     AccountData := bool;
     Wallet := string;
     RawFileMetadata := FileMetadata;
     RawMetadata := FileMetadata;
     FileShareInfoJson := FileMetadata * EthAddress;
     Data := Bytes;
     connection := fun _ => tt;
     bee := fun _ => tt;
     downloadOptions := fun _ => None;
     privateKey := fun w => w;
     file_name := fileName;
     file_path := filePath;
     META_VERSION := "2.0.0";
     stringToBytes := list_byte_of_string;
     extractPathInfo := fun full => {| path := "/"; filename := full |};
     generateBlockName := fun i => "block-" ++ decimal i;
     blocksToManifest :=
       fun b => "[" ++ String.concat ";" (map (fun d => name d ++ "=" ++ reference d) (blocks b))
                ++ "]";
     getFileMetadataRawBytes :=
       fun m => list_byte_of_string (fileName m ++ "@" ++ blocksReference m);
     rawFileMetadataToFileMetadata := fun m => m;
     combine := fun a b => a ++ "/" ++ b;
     prepareEthAddress := list_byte_of_string;
     wrapBytesWithHelpers := fun d => d;
     createFileShareInfo := fun m a => (m, a);
     JSON_stringify := fun x => fileName (fst x);
     isAccount := fun a => a;
     isPodName := fun s => negb (s =? "")%string;
     isFullPathWithName := fun s => String.prefix "/" s;
     isEncryptedReference := fun r => (String.length r =? 128)%nat;
     isRawFileMetadata := fun m => Some m;
     resaveTimes := fun m => (accessTime m, modificationTime m) |}.

Record World := mkWorld {
  stored : list Bytes;                       (* content-addressed store *)
  entries : list (string * string);          (* directory index *)
  feeds : list (string * Bytes);             (* feed payloads, newest first *)
  shared : list (Reference * @FileShareInfo imports);
  pods : list (string * @ExtendedPodInfo imports);
  clock : Z
}.

Fixpoint lookup {V : Type} (k : string) (l : list (string * V)) : option V :=
  match l with
  | [] => None
  | (k', v) :: rest => if (k =? k')%string then Some v else lookup k rest
  end.

Definition refOf (n : nat) : Reference := "ref" ++ decimal (Z.of_nat n).

Definition handle (op : @Op imports) : World -> (string + @res imports op) * World :=
  match op as o return World -> (string + @res imports o) * World with
  | GetExtendedPodsListByAccountData acc pod => fun w =>
      match lookup pod (pods w) with
      | Some info => (inr info, w)
      | None => (inl "pod not found", w)
      end
  | GetUnixTimestamp => fun w => (inr (clock w), w)
  | UploadBytes _ data => fun w =>
      (inr {| resReference := refOf (List.length (stored w)) |},
       mkWorld (stored w ++ [data])%list (entries w) (feeds w) (shared w) (pods w) (clock w + 1))
  | AddEntryToDirectory _ _ dir entry _ => fun w =>
      (inr tt,
       mkWorld (stored w) ((dir, entry) :: entries w) (feeds w) (shared w) (pods w) (clock w + 1))
  | RemoveEntryFromDirectory _ _ dir entry _ => fun w =>
      (inr tt,
       mkWorld (stored w)
         (filter (fun e => negb ((fst e =? dir)%string && (snd e =? entry)%string)) (entries w))
         (feeds w) (shared w) (pods w) (clock w + 1))
  | WriteFeedData _ topic data _ => fun w =>
      (inr (refOf (List.length (feeds w))),
       mkWorld (stored w) (entries w) ((topic, data) :: feeds w) (shared w) (pods w) (clock w + 1))
  | GetRawMetadata _ fullPath _ => fun w => (inl "no metadata", w)
  | GetSharedFileInfo _ r => fun w =>
      match lookup r (shared w) with
      | Some info => (inr info, w)
      | None => (inl "reference not found", w)
      end
  | GetSharedPodInfo _ r => fun w => (inr {| pod_address := r |}, w)
  | DownloadData _ fullPath _ _ => fun w =>
      match lookup fullPath (feeds w) with
      | Some d => (inr d, w)
      | None => (inl "file not found", w)
      end
  end.

Definition bytes5 : Bytes := [x61; x62; x63; x64; x65]%byte.

Definition podInfo : @ExtendedPodInfo imports :=
  @mkExtendedPodInfo imports [xaa; xbb]%byte "key".

Definition sharedMeta : FileMetadata :=
  {| version := "2.0.0"; podAddress := [x11]%byte; podName := "theirs";
     filePath := "/docs"; fileName := "a.txt"; fileSize := 5; metaBlockSize := 2;
     metaContentType := ""; compression := ""; creationTime := 100; accessTime := 100;
     modificationTime := 100; blocksReference := "ref3" |}.

Definition encRef : Reference :=
  "0123456789abcdef0123456789abcdef0123456789abcdef0123456789abcdef0123456789abcdef0123456789abcdef0123456789abcdef0123456789abcdef".

Definition w0 : World :=
  {| stored := [];
     entries := [];
     feeds := [("/docs/a.txt", bytes5)];
     shared := [(encRef, @mkFileShareInfo imports sharedMeta "0xabc")];
     pods := [("pod", podInfo)];
     clock := 1700000000 |}.

(** Runs from [w0]. *)
Definition exec {A : Type} (p : @Prog imports A) : Run World A :=
  @run imports World handle A p w0.

Definition opts (bs : Z) : option DataUploadOptions :=
  Some {| blockSize := bs; contentType := "" |}.

(** Five bytes in blocks of two, by an account holder. *)
Definition upload5 : @Prog imports FileMetadata :=
  @uploadData imports 3 true "pod" "/a.txt" (PBytes bytes5) (opts 2).

(** An empty text, with the default options and no fuel. *)
Definition uploadEmpty : @Prog imports FileMetadata :=
  @uploadData imports 0 true "pod" "/empty" (PString "") None.

(** Five bytes with a negative block size. *)
Definition uploadNegative : @Prog imports FileMetadata :=
  @uploadData imports 0 true "pod" "/a.txt" (PBytes bytes5) (opts (-1)).

(** Five bytes with block size zero. *)
Definition uploadZero (fuel : nat) : @Prog imports FileMetadata :=
  @uploadData imports fuel true "pod" "/a.txt" (PBytes bytes5) (opts 0).

(** The world after [upload5]. *)
Definition w5 : World := final (exec upload5).

Definition execFrom {A : Type} (w : World) (p : @Prog imports A) : Run World A :=
  @run imports World handle A p w.

(** Deleting the uploaded file. *)
Definition delete5 : @Prog imports unit := @delete imports true "pod" "/a.txt".

(** The sharing calls, made without an account ([false]). *)
Definition sharedInfo : @Prog imports (@FileShareInfo imports) :=
  @getSharedInfo imports false encRef.
Definition sharedFile : @Prog imports Bytes := @downloadShared imports false encRef.
Definition sharedPodFile : @Prog imports Bytes :=
  @downloadFromSharedPod imports false encRef "/docs/a.txt".
Definition saveIt (options : option FileReceiveOptions) : @Prog imports FileMetadata :=
  @saveShared imports false "pod" "/inbox" encRef options.

(** A reference of the wrong shape. *)
Definition badRef : Reference := "abc".

(** Collaborators that can refuse: the store holds at most [quota]
    objects, the feed at topic "/locked" cannot be written, and the raw
    metadata of a path that has a feed is [sharedMeta]. *)
Definition handleLimited (quota : nat) (op : @Op imports) :
    World -> (string + @res imports op) * World :=
  match op as o return World -> (string + @res imports o) * World with
  | UploadBytes c data => fun w =>
      if (quota <=? List.length (stored w))%nat then (inl "store full", w)
      else handle (UploadBytes c data) w
  | WriteFeedData c topic data k => fun w =>
      if (topic =? "/locked")%string then (inl "feed locked", w)
      else handle (WriteFeedData c topic data k) w
  | GetRawMetadata b fullPath a => fun w =>
      match lookup fullPath (feeds w) with
      | Some _ => (inr (@mkRawMetadataWithEpoch imports sharedMeta), w)
      | None => (inl "no metadata", w)
      end
  | o => handle o
  end.

Definition execLimited {A : Type} (quota : nat) (p : @Prog imports A) : Run World A :=
  @run imports World (handleLimited quota) A p w0.

(** Five bytes in blocks of two to a feed that cannot be written. *)
Definition uploadLocked : @Prog imports FileMetadata :=
  @uploadData imports 3 true "pod" "/locked" (PBytes bytes5) (opts 2).

(** An account holder, an empty pod name and a path without a leading slash. *)
Definition uploadInvalid : @Prog imports FileMetadata :=
  @uploadData imports 3 true "" "a.txt" (PBytes bytes5) None.
Definition downloadInvalid : @Prog imports Bytes := @downloadData imports true "" "a.txt".
Definition deleteInvalid : @Prog imports unit := @delete imports true "" "a.txt".
Definition shareInvalid : @Prog imports Reference := @share imports true "" "a.txt".

Definition download5 : @Prog imports Bytes := @downloadData imports true "pod" "/docs/a.txt".
Definition share5 : @Prog imports Reference := @share imports true "pod" "/docs/a.txt".

(** Saving a share under a name whose feed cannot be written. *)
Definition saveLocked : @Prog imports FileMetadata :=
  @saveShared imports true "pod" "" encRef (Some {| optName := Some "locked" |}).

Definition sharedFileBad : @Prog imports Bytes := @downloadShared imports false badRef.
Definition saveBad (pod : string) : @Prog imports FileMetadata :=
  @saveShared imports false pod "/inbox" badRef None.

(** Five bytes with the default options; one byte short of two blocks. *)
Definition uploadDefault : @Prog imports FileMetadata :=
  @uploadData imports 1 true "pod" "/a.txt" (PBytes bytes5) None.
Definition bytes4 : Bytes := [x61; x62; x63; x64]%byte.
Definition upload4 : @Prog imports FileMetadata :=
  @uploadData imports 2 true "pod" "/b.txt" (PBytes bytes4) (opts 2).

End Mem.

(** * Properties *)

Unset Implicit Arguments.

(** ** Slicing *)
Section Slicing.

Lemma firstn_plus (A : Type) (a b : nat) (l : list A) :
  firstn (a + b) l = firstn a l ++ firstn b (skipn a l).
Proof.
  revert l; induction a as [|a IH]; intros l; simpl.
  - reflexivity.
  - destruct l as [|x l]; simpl.
    + now rewrite firstn_nil.
    + now rewrite IH.
Qed.

Lemma ceilDiv_bounds (len n : Z) :
  0 < n -> 0 <= len ->
  0 <= ceilDiv len n /\ len <= ceilDiv len n * n /\ ceilDiv len n * n < len + n.
Proof.
  intros Hn Hlen. unfold ceilDiv.
  pose proof (Z.div_mod (- len) n ltac:(lia)) as E.
  pose proof (Z.mod_pos_bound (- len) n Hn) as B.
  nia.
Qed.

Lemma ceilDiv_zero (n : Z) : ceilDiv 0 n = 0.
Proof. destruct n; reflexivity. Qed.

Lemma blockAt_firstn (data : Bytes) (bs i : Z) :
  0 < bs -> 0 <= i ->
  blockAt data bs i = firstn (Z.to_nat bs) (skipn (Z.to_nat (i * bs)) data).
Proof.
  intros Hbs Hi. unfold blockAt, slice, relativeIndex.
  set (len := Z.of_nat (List.length data)).
  assert (Hlen : 0 <= len) by (unfold len; lia).
  destruct (Z.ltb_spec (i * bs) 0) as [?|_]; [nia|].
  destruct (Z.ltb_spec ((i + 1) * bs) 0) as [?|_]; [nia|].
  destruct (Z.le_gt_cases len (i * bs)) as [Hge|Hlt].
  - rewrite Z.min_r by lia. rewrite Z.min_r by nia.
    rewrite !skipn_all2 by (unfold len in *; lia).
    now rewrite !firstn_nil.
  - rewrite (Z.min_l (i * bs)) by lia.
    destruct (Z.le_gt_cases ((i + 1) * bs) len) as [Hfull|Hpart].
    + rewrite Z.min_l by lia. f_equal. f_equal. lia.
    + rewrite Z.min_r by lia.
      rewrite !firstn_all2; try reflexivity;
        rewrite length_skipn; unfold len in *; lia.
Qed.

Lemma blockAt_length (data : Bytes) (bs i : Z) :
  0 < bs -> 0 <= i ->
  byteLength (blockAt data bs i) = Z.min bs (Z.max 0 (byteLength data - i * bs)).
Proof.
  intros Hbs Hi. rewrite blockAt_firstn by assumption.
  unfold byteLength. rewrite length_firstn, length_skipn. lia.
Qed.

Lemma blockContents_length (data : Bytes) (bs : Z) (k : nat) :
  forall i, List.length (blockContents data bs i k) = k.
Proof. induction k as [|k IH]; intros i; simpl; [reflexivity | now rewrite IH]. Qed.

Lemma blockContents_nth (data : Bytes) (bs : Z) (k : nat) :
  forall i j, (j < k)%nat ->
    nth j (blockContents data bs i k) [] = blockAt data bs (i + Z.of_nat j).
Proof.
  induction k as [|k IH]; intros i j Hj; [lia|].
  destruct j as [|j]; simpl.
  - f_equal. lia.
  - rewrite IH by lia. f_equal. lia.
Qed.

Lemma blockContents_last (data : Bytes) (bs : Z) (k : nat) :
  forall i, last (blockContents data bs i (S k)) [] = blockAt data bs (i + Z.of_nat k).
Proof.
  induction k as [|k IH]; intros i.
  - simpl. f_equal. lia.
  - change (blockContents data bs i (S (S k)))
      with (blockAt data bs i :: blockContents data bs (i + 1) (S k)).
    remember (blockContents data bs (i + 1) (S k)) as rest eqn:E.
    destruct rest as [|b rest']; [discriminate E|].
    change (last (blockAt data bs i :: b :: rest') []) with (last (b :: rest') []).
    rewrite E, IH. f_equal. lia.
Qed.

Lemma blockContents_concat (data : Bytes) (bs : Z) (k : nat) :
  0 < bs -> forall i, 0 <= i ->
    List.concat (blockContents data bs i k)
    = firstn (k * Z.to_nat bs) (skipn (Z.to_nat (i * bs)) data).
Proof.
  intros Hbs. induction k as [|k IH]; intros i Hi; simpl.
  - reflexivity.
  - rewrite firstn_plus, IH by lia. rewrite blockAt_firstn by assumption.
    f_equal. rewrite skipn_skipn. f_equal. f_equal. lia.
Qed.

(** The slices taken by the loop are a split of the payload. *)
Lemma blockContents_splits (p : Bytes) (n : Z) :
  0 < n ->
  splitsInto p n (blockContents p n 0 (Z.to_nat (ceilDiv (byteLength p) n))).
Proof.
  intros Hn.
  assert (Hlen : 0 <= byteLength p) by (unfold byteLength; lia).
  destruct (ceilDiv_bounds _ _ Hn Hlen) as (Hc0 & Hc1 & Hc2).
  set (c := ceilDiv (byteLength p) n) in *.
  unfold splitsInto. rewrite blockContents_length.
  repeat split.
  - lia.
  - intros j Hj. rewrite blockContents_nth by lia.
    rewrite blockAt_length by lia. nia.
  - destruct (Z.to_nat c) as [|k] eqn:Ek; [intros; exfalso; auto|].
    rewrite blockContents_last, blockAt_length by lia. nia.
  - destruct (Z.to_nat c) as [|k] eqn:Ek; [intros; exfalso; auto|].
    rewrite blockContents_last, blockAt_length by lia. nia.
  - rewrite blockContents_concat by lia. simpl.
    apply firstn_all2. unfold byteLength in *. nia.
Qed.

End Slicing.

(** ** Runs *)
Section Executions.

Context `{Imports}.
Variable World : Type.
Variable handle : forall op : Op, World -> (string + res op) * World.

Local Abbreviation exec := (run handle).

Lemma run_bind (A B : Type) (p : Prog A) (f : A -> Prog B) :
  forall w, exec (bind p f) w = andThen (exec p w) (fun a w' => exec (f a) w').
Proof.
  induction p as [a|e| |op k IH]; intros w; simpl.
  - unfold andThen; simpl. now destruct (exec (f a) w).
  - reflexivity.
  - reflexivity.
  - destruct (handle op w) as [[msg|x] w']; [reflexivity|].
    rewrite IH. unfold andThen, logged; simpl.
    now destruct (outcome (exec (k x) w')).
Qed.

Lemma run_assert (B : Type) (a : Assertion) (ok : bool) (f : unit -> Prog B) (w : World) :
  exec (bind (assertThat a ok) f) w
  = if ok then exec (f tt) w
    else {| outcome := Err (AssertionFailed a); final := w; trace := [] |}.
Proof. now destruct ok. Qed.

Lemma run_await (B : Type) (op : Op) (f : res op -> Prog B) (w : World) :
  exec (bind (await op) f) w
  = match handle op w with
    | (inl msg, w') =>
        {| outcome := Err (Rejected msg); final := w'; trace := [rejected op msg] |}
    | (inr x, w') => logged (answered op x) (exec (f x) w')
    end.
Proof. reflexivity. Qed.

Lemma run_await_last (op : Op) (w : World) :
  exec (await op) w
  = match handle op w with
    | (inl msg, w') =>
        {| outcome := Err (Rejected msg); final := w'; trace := [rejected op msg] |}
    | (inr x, w') => {| outcome := Ok x; final := w'; trace := [answered op x] |}
    end.
Proof. unfold await; simpl. now destruct (handle op w) as [[?|?] ?]. Qed.

(** *** The loop *)

Lemma remaining_enter (c : JsNumber) (i : Z) :
  js_lt i c = true ->
  forall k, remaining c i = Some k -> exists k', k = S k' /\ remaining c (i + 1) = Some k'.
Proof.
  destruct c as [n| |]; simpl; intros Hlt k E; try discriminate.
  apply Z.ltb_lt in Hlt. injection E as <-.
  exists (Z.to_nat (n - (i + 1))). split; [lia | reflexivity].
Qed.

Lemma remaining_enter_inv (c : JsNumber) (i : Z) (k : nat) :
  js_lt i c = true -> remaining c (i + 1) = Some k -> remaining c i = Some (S k).
Proof.
  destruct c as [n| |]; simpl; intros Hlt E; try discriminate.
  apply Z.ltb_lt in Hlt. injection E as <-. f_equal. lia.
Qed.

Lemma remaining_exit (c : JsNumber) (i : Z) :
  js_lt i c = false -> remaining c i = Some O.
Proof.
  destruct c as [n| |]; simpl; intros Hlt; try discriminate; [|reflexivity].
  apply Z.ltb_ge in Hlt. f_equal. lia.
Qed.

Lemma descriptors_snoc (data : Bytes) (bs : Z) (refs : list Reference) :
  forall i (acc : list Block) (r : Reference),
    (acc ++ [descriptor data bs i r]) ++ descriptors data bs (i + 1) refs
    = acc ++ descriptors data bs i (r :: refs).
Proof. intros. now rewrite <- app_assoc. Qed.

(** Every run of the loop, whatever its outcome: the calls made are the
    uploads of consecutive slices, each answered but possibly the last. *)
Lemma uploadBlocks_run (conn : Connection) (data : Bytes) (bs : Z) (c : JsNumber) :
  forall (fuel : nat) (i : Z) (acc : list Block) (w : World),
    let r := exec (uploadBlocks fuel conn data bs c i acc) w in
    exists refs,
      match outcome r with
      | Ok bl =>
          trace r = blockEvents conn data bs i refs
          /\ bl = acc ++ descriptors data bs i refs
          /\ remaining c i = Some (List.length refs)
      | Err e =>
          exists msg, e = Rejected msg
          /\ trace r = blockEvents conn data bs i refs
                       ++ [rejected (UploadBytes conn
                                       (blockAt data bs (i + Z.of_nat (List.length refs)))) msg]
          /\ (forall k, remaining c i = Some k -> (List.length refs < k)%nat)
      | Pending =>
          trace r = blockEvents conn data bs i refs
          /\ List.length refs = fuel
          /\ (forall k, remaining c i = Some k -> (fuel < k)%nat)
      end.
Proof.
  induction fuel as [|fuel IH]; intros i acc w; simpl.
  - destruct (js_lt i c) eqn:Hlt; simpl.
    + exists []. repeat split; try reflexivity.
      intros k Hk. destruct (remaining_enter _ _ Hlt _ Hk) as (k' & -> & _). lia.
    + exists []. rewrite app_nil_r. repeat split. now apply remaining_exit.
  - destruct (js_lt i c) eqn:Hlt; simpl.
    + fold (blockAt data bs i).
      destruct (handle (UploadBytes conn (blockAt data bs i)) w) as [[msg|x] w'] eqn:Hh; simpl.
      * exists []. exists msg. simpl. rewrite Z.add_0_r. repeat split.
        intros k Hk. destruct (remaining_enter _ _ Hlt _ Hk) as (k' & -> & _). lia.
      * specialize (IH (i + 1)
          (acc ++ [descriptor data bs i (resReference x)]) w').
        destruct IH as (refs & IH). exists (resReference x :: refs).
        fold (byteLength (blockAt data bs i)) in *.
        change (mkBlock (generateBlockName i) (byteLength (blockAt data bs i))
                  (byteLength (blockAt data bs i)) (resReference x))
          with (descriptor data bs i (resReference x)).
        destruct (outcome (exec _ w')) as [bl|e|] eqn:Ho; simpl.
        -- destruct IH as (Ht & Hbl & Hrem). repeat split.
           ++ rewrite Ht. now destruct x.
           ++ now rewrite Hbl, descriptors_snoc.
           ++ now apply remaining_enter_inv.
        -- destruct IH as (msg & -> & Ht & Hrem). exists msg. repeat split.
           ++ rewrite Ht. destruct x; simpl. do 6 f_equal. lia.
           ++ intros k Hk. destruct (remaining_enter _ _ Hlt _ Hk) as (k' & -> & Hk').
              specialize (Hrem _ Hk'). lia.
        -- destruct IH as (Ht & Hlen & Hrem). repeat split.
           ++ rewrite Ht. now destruct x.
           ++ now rewrite Hlen.
           ++ intros k Hk. destruct (remaining_enter _ _ Hlt _ Hk) as (k' & -> & Hk').
              specialize (Hrem _ Hk'). lia.
    + exists []. rewrite app_nil_r. repeat split. now apply remaining_exit.
Qed.

(** *** uploadData *)

Ltac pass_asserts :=
  unfold assertAccount, assertPodName, assertFullPathWithName, assertEncryptedReference;
  repeat (rewrite run_assert;
          match goal with
          | |- context [if ?b then _ else _] => destruct b eqn:?
          end; simpl; try discriminate; try tauto).

Ltac answer w' :=
  rewrite ?run_await, ?run_await_last;
  match goal with
  | |- context [handle ?op ?w] =>
      let msg := fresh "msg" in
      let x := fresh "x" in
      destruct (handle op w) as [[msg|x] w'] eqn:?; simpl; try discriminate; try tauto
  end.

(** A completed upload made exactly the calls of [uploadEvents], with the
    answers it received, and returns the record built from them. *)
Lemma uploadData_ok (fuel : nat) (acc : AccountData) (pod fullPath : string)
    (data : Payload) (options : option DataUploadOptions) (w : World) (m : FileMetadata) :
  let r := exec (uploadData fuel acc pod fullPath data options) w in
  let p := payloadBytes data in
  let o := mergeOptions options in
  outcome r = Ok m ->
  exists info now refs fref,
    trace r = uploadEvents acc pod fullPath p o info now refs (blocksReference m) fref
    /\ m = uploadedMetadata pod fullPath p o info now (blocksReference m)
    /\ remaining (Math_ceil_div (byteLength p) (blockSize o)) 0 = Some (List.length refs)
    /\ isAccount acc = true /\ isPodName pod = true /\ isFullPathWithName fullPath = true.
Proof.
  cbv zeta. unfold uploadData. cbv zeta.
  pass_asserts.
  answer w1. answer w2.
  rewrite run_bind. unfold andThen.
  destruct (uploadBlocks_run (connection acc) (payloadBytes data)
              (blockSize (mergeOptions options))
              (Math_ceil_div (byteLength (payloadBytes data)) (blockSize (mergeOptions options)))
              fuel 0 [] w2) as (refs & Hloop).
  cbv zeta in Hloop.
  destruct (outcome (exec (uploadBlocks _ _ _ _ _ _ _) w2)) as [bl|e|]; simpl;
    try discriminate.
  destruct Hloop as (Ht & -> & Hrem). simpl app.
  answer w3. answer w4. answer w5.
  intros E. injection E as <-. simpl.
  exists x, x0, refs, x3. repeat split; try assumption.
  unfold uploadEvents, closingEvents, uploadedMetadata, manifestOf. simpl.
  rewrite Ht. destruct x1, x2. reflexivity.
Qed.

(** A run stops with fuel left over only inside the loop. *)
Lemma uploadData_pending (fuel : nat) (acc : AccountData) (pod fullPath : string)
    (data : Payload) (options : option DataUploadOptions) (w : World) :
  let r := exec (uploadData fuel acc pod fullPath data options) w in
  let p := payloadBytes data in
  let o := mergeOptions options in
  outcome r = Pending ->
  forall k, remaining (Math_ceil_div (byteLength p) (blockSize o)) 0 = Some k ->
            (fuel < k)%nat.
Proof.
  cbv zeta. unfold uploadData. cbv zeta.
  pass_asserts.
  answer w1. answer w2.
  rewrite run_bind. unfold andThen.
  destruct (uploadBlocks_run (connection acc) (payloadBytes data)
              (blockSize (mergeOptions options))
              (Math_ceil_div (byteLength (payloadBytes data)) (blockSize (mergeOptions options)))
              fuel 0 [] w2) as (refs & Hloop).
  cbv zeta in Hloop.
  destruct (outcome (exec (uploadBlocks _ _ _ _ _ _ _) w2)) as [bl|e|]; simpl;
    try discriminate.
  - answer w3. answer w4. answer w5.
  - intros _. now destruct Hloop as (_ & _ & Hrem).
Qed.

(** With enough fuel for the loop, a run that does not fail completes. *)
Lemma uploadData_completes (fuel : nat) (acc : AccountData) (pod fullPath : string)
    (data : Payload) (options : option DataUploadOptions) (w : World) (k : nat) :
  let r := exec (uploadData fuel acc pod fullPath data options) w in
  let p := payloadBytes data in
  let o := mergeOptions options in
  remaining (Math_ceil_div (byteLength p) (blockSize o)) 0 = Some k ->
  (k <= fuel)%nat ->
  failed r = false ->
  exists m, outcome r = Ok m.
Proof.
  cbv zeta. intros Hrem Hfuel Hfail. unfold failed in Hfail.
  destruct (outcome (exec _ w)) as [m|e|] eqn:Ho.
  - now exists m.
  - discriminate.
  - pose proof (uploadData_pending _ _ _ _ _ _ _ Ho _ Hrem). lia.
Qed.

(** *** The order of the calls *)

Lemma follow_blocks (n : option nat) (conn : Connection) (data : Bytes) (bs : Z)
    (rest : list Event) (refs : list Reference) :
  forall k i,
    (forall n', n = Some n' -> (k + List.length refs <= n')%nat) ->
    follow n (Uploading k) (blockEvents conn data bs i refs ++ rest)
    = follow n (Uploading (k + List.length refs)) rest.
Proof.
  induction refs as [|r refs IH]; intros k i Hn; simpl.
  - now rewrite Nat.add_0_r.
  - destruct n as [n'|].
    + specialize (Hn n' eq_refl). simpl in Hn.
      destruct (Nat.ltb_spec k n') as [_|?]; [|lia].
      rewrite IH by (intros ? [= <-]; lia). f_equal. f_equal. lia.
    + rewrite IH by discriminate. f_equal. f_equal. lia.
Qed.

Lemma advance_upload (n : option nat) (k : nat) (conn : Connection) (d : Bytes) :
  exists ph, advance n (Uploading k) (UploadBytes conn d) = Some ph.
Proof.
  simpl. destruct n as [n'|]; [destruct (k <? n')%nat|]; eauto.
Qed.

Lemma advance_manifest (k : nat) (conn : Connection) (d : Bytes) :
  advance (Some k) (Uploading k) (UploadBytes conn d) = Some ManifestStored.
Proof. simpl. now rewrite Nat.ltb_irrefl. Qed.

Lemma follow_uploadEvents (acc : AccountData) (pod fullPath : string) (p : Bytes)
    (o : DataUploadOptions) (info : ExtendedPodInfo) (now : Z)
    (refs : list Reference) (mref fref : Reference) :
  follow (Some (List.length refs)) Started
    (uploadEvents acc pod fullPath p o info now refs mref fref)
  = Some FeedPublished.
Proof.
  unfold uploadEvents. cbn [app follow evOp answered advance].
  rewrite follow_blocks by (intros ? [= <-]; lia).
  unfold closingEvents. cbn [follow evOp answered Nat.add].
  rewrite advance_manifest. reflexivity.
Qed.

(** Every execution of uploadData, completed or not, makes its calls in
    the order of the acceptor. *)
Lemma uploadData_in_order (fuel : nat) (acc : AccountData) (pod fullPath : string)
    (data : Payload) (options : option DataUploadOptions) (w : World) :
  let r := exec (uploadData fuel acc pod fullPath data options) w in
  let p := payloadBytes data in
  let o := mergeOptions options in
  exists ph,
    follow (remaining (Math_ceil_div (byteLength p) (blockSize o)) 0) Started (trace r)
    = Some ph.
Proof.
  cbv zeta.
  destruct (outcome (exec (uploadData fuel acc pod fullPath data options) w))
    as [m|e|] eqn:Ho.
  - destruct (uploadData_ok _ _ _ _ _ _ _ _ Ho) as (info & now & refs & fref & Ht & _ & Hrem & _).
    rewrite Ht, Hrem, follow_uploadEvents. eauto.
  - revert Ho. unfold uploadData. cbv zeta.
    unfold assertAccount, assertPodName, assertFullPathWithName.
    rewrite run_assert. destruct (isAccount acc); [|simpl; eauto].
    rewrite run_assert. destruct (isPodName pod); [|simpl; eauto].
    rewrite run_assert. destruct (isFullPathWithName fullPath); [|simpl; eauto].
    rewrite run_assert, run_await.
    destruct (handle _ w) as [[msg|info] w1]; [simpl; eauto|].
    rewrite run_await.
    destruct (handle _ w1) as [[msg|now] w2]; [simpl; eauto|].
    rewrite run_bind. unfold andThen.
    destruct (uploadBlocks_run (connection acc) (payloadBytes data)
                (blockSize (mergeOptions options))
                (Math_ceil_div (byteLength (payloadBytes data))
                   (blockSize (mergeOptions options)))
                fuel 0 [] w2) as (refs & Hloop).
    cbv zeta in Hloop.
    destruct (outcome (exec (uploadBlocks _ _ _ _ _ _ _) w2)) as [bl|e'|].
    + destruct Hloop as (Ht & -> & Hrem). rewrite Hrem.
      cbv beta zeta. rewrite run_await.
      destruct (handle _ _) as [[msg|mref] w3].
      { intros _. cbn [trace logged follow evOp answered advance]. rewrite Ht.
        rewrite follow_blocks by (intros ? [= <-]; lia).
        cbn [follow evOp rejected Nat.add]. rewrite advance_manifest. eauto. }
      rewrite run_await.
      destruct (handle _ w3) as [[msg|u] w4].
      { intros _. cbn [trace logged follow evOp answered advance]. rewrite Ht.
        rewrite follow_blocks by (intros ? [= <-]; lia).
        cbn [follow evOp rejected answered Nat.add]. rewrite advance_manifest.
        simpl. eauto. }
      rewrite run_await.
      destruct (handle _ w4) as [[msg|fref] w5]; [|discriminate].
      intros _. cbn [trace logged follow evOp answered advance]. rewrite Ht.
      rewrite follow_blocks by (intros ? [= <-]; lia).
      cbn [follow evOp rejected answered Nat.add]. rewrite advance_manifest.
      simpl. eauto.
    + destruct Hloop as (msg & -> & Ht & Hrem). intros _.
      cbn [trace logged follow evOp answered advance]. rewrite Ht.
      rewrite follow_blocks by (intros n' Hn'; specialize (Hrem _ Hn'); lia).
      cbn [follow evOp rejected Nat.add].
      destruct (advance_upload
                  (remaining (Math_ceil_div (byteLength (payloadBytes data))
                                (blockSize (mergeOptions options))) 0)
                  (List.length refs) (connection acc)
                  (blockAt (payloadBytes data) (blockSize (mergeOptions options))
                     (0 + Z.of_nat (List.length refs)))) as (ph & ->).
      eauto.
    + discriminate.
  - revert Ho. unfold uploadData. cbv zeta.
    pass_asserts. answer w1. answer w2.
    rewrite run_bind. unfold andThen.
    destruct (uploadBlocks_run (connection acc) (payloadBytes data)
                (blockSize (mergeOptions options))
                (Math_ceil_div (byteLength (payloadBytes data))
                   (blockSize (mergeOptions options)))
                fuel 0 [] w2) as (refs & Hloop).
    cbv zeta in Hloop.
    destruct (outcome (exec (uploadBlocks _ _ _ _ _ _ _) w2)) as [bl|e'|]; simpl;
      try discriminate.
    + answer w3. answer w4. answer w5.
    + destruct Hloop as (Ht & Hlen & Hrem). intros _. rewrite Ht.
      rewrite <- (app_nil_r (blockEvents _ _ _ _ _)).
      rewrite follow_blocks by (intros n' Hn'; specialize (Hrem _ Hn'); lia).
      simpl. eauto.
Qed.

(** *** What the loop leaves behind *)

Lemma storeWrites_blocks (conn : Connection) (data : Bytes) (bs : Z)
    (rest : list Event) (refs : list Reference) :
  forall i,
    storeWrites (blockEvents conn data bs i refs ++ rest)
    = blockContents data bs i (List.length refs) ++ storeWrites rest.
Proof.
  induction refs as [|r refs IH]; intros i; simpl; [reflexivity|].
  now rewrite IH.
Qed.

Lemma storeWrites_uploadEvents (acc : AccountData) (pod fullPath : string) (p : Bytes)
    (o : DataUploadOptions) (info : ExtendedPodInfo) (now : Z)
    (refs : list Reference) (mref fref : Reference) :
  storeWrites (uploadEvents acc pod fullPath p o info now refs mref fref)
  = blockContents p (blockSize o) 0 (List.length refs)
    ++ [manifestOf (descriptors p (blockSize o) 0 refs)].
Proof.
  unfold uploadEvents. cbn [app storeWrites evOp answered].
  now rewrite storeWrites_blocks.
Qed.

Lemma descriptors_sizes (data : Bytes) (bs : Z) (refs : list Reference) :
  forall i,
    map size (descriptors data bs i refs)
    = map byteLength (blockContents data bs i (List.length refs)).
Proof.
  induction refs as [|r refs IH]; intros i; simpl; [reflexivity|].
  now rewrite IH.
Qed.

Lemma byteLength_app (a b : Bytes) : byteLength (a ++ b) = byteLength a + byteLength b.
Proof. unfold byteLength. rewrite length_app. lia. Qed.

Lemma descriptors_sum (data : Bytes) (bs : Z) (refs : list Reference) :
  forall i,
    sumSizes (descriptors data bs i refs)
    = byteLength (List.concat (blockContents data bs i (List.length refs))).
Proof.
  induction refs as [|r refs IH]; intros i; simpl; [reflexivity|].
  now rewrite byteLength_app, IH.
Qed.

Lemma descriptors_nth (data : Bytes) (bs : Z) (refs : list Reference) :
  forall i j b,
    nth_error (descriptors data bs i refs) j = Some b ->
    name b = generateBlockName (i + Z.of_nat j)
    /\ size b = byteLength (blockAt data bs (i + Z.of_nat j))
    /\ compressedSize b = size b
    /\ nth_error refs j = Some (reference b).
Proof.
  induction refs as [|r refs IH]; intros i j b; destruct j as [|j]; simpl;
    try discriminate.
  - intros [= <-]. simpl. rewrite Z.add_0_r. auto.
  - intros Hb. destruct (IH (i + 1) j b Hb) as (Hn & Hs & Hc & Hr).
    replace (i + Z.pos (Pos.of_succ_nat j)) with (i + 1 + Z.of_nat j) by lia.
    auto.
Qed.

Lemma remaining_nonzero (len bs : Z) :
  bs <> 0 -> remaining (Math_ceil_div len bs) 0 = Some (Z.to_nat (ceilDiv len bs)).
Proof.
  intros Hbs. unfold Math_ceil_div. destruct (Z.eqb_spec bs 0) as [?|_]; [contradiction|].
  simpl. unfold ceilDiv. f_equal. f_equal. lia.
Qed.

Lemma remaining_empty (bs : Z) : remaining (Math_ceil_div 0 bs) 0 = Some O.
Proof. unfold Math_ceil_div. destruct (bs =? 0); simpl; [reflexivity|]. now destruct bs. Qed.

Lemma ceilDiv_negative (len bs : Z) : 0 <= len -> bs < 0 -> ceilDiv len bs <= 0.
Proof.
  intros Hlen Hbs. unfold ceilDiv.
  assert (0 <= - len / bs); [|lia].
  rewrite <- Z.div_opp_opp by lia. rewrite Z.opp_involutive.
  apply Z.div_pos; lia.
Qed.

(** A run that neither fails nor runs out of fuel: the general shape. *)
Lemma uploadData_returns (fuel : nat) (acc : AccountData) (pod fullPath : string)
    (data : Payload) (options : option DataUploadOptions) (w : World) (k : nat) :
  let r := exec (uploadData fuel acc pod fullPath data options) w in
  let p := payloadBytes data in
  let o := mergeOptions options in
  remaining (Math_ceil_div (byteLength p) (blockSize o)) 0 = Some k ->
  (k <= fuel)%nat ->
  failed r = false ->
  exists m info now refs fref,
    outcome r = Ok m
    /\ trace r = uploadEvents acc pod fullPath p o info now refs (blocksReference m) fref
    /\ m = uploadedMetadata pod fullPath p o info now (blocksReference m)
    /\ List.length refs = k.
Proof.
  cbv zeta. intros Hrem Hfuel Hfail.
  destruct (uploadData_completes _ _ _ _ _ _ _ _ Hrem Hfuel Hfail) as (m & Ho).
  destruct (uploadData_ok _ _ _ _ _ _ _ _ Ho) as (info & now & refs & fref & Ht & Hm & Hr & _).
  exists m, info, now, refs, fref. repeat split; try assumption.
  rewrite Hrem in Hr. now injection Hr.
Qed.

End Executions.

(** * The claims *)

(** ** Splitting (uploadData) *)

(** C1. For every payload [p] and positive block size [n], a run of
    uploadData that does not fail writes to the store ceil(|p|/n) blocks
    followed by the manifest that lists them; every block but the last has
    length [n], the last has length between 1 and [n], and the blocks
    concatenated in order are [p]; the descriptors record those lengths and
    the returned metadata records |p|.  For 2,500,000 bytes and blocks of
    1,000,000 the descriptor sizes are 1,000,000; 1,000,000; 500,000 and
    fileSize is 2,500,000. *)
Theorem uploadData_splits_payload `{Imports} {World : Type}
    (handle : forall op : Op, World -> (string + res op) * World)
    (fuel : nat) (acc : AccountData) (pod fullPath : string)
    (data : Payload) (options : option DataUploadOptions) (w : World) :
  let r := run handle (uploadData fuel acc pod fullPath data options) w in
  let p := payloadBytes data in
  let o := mergeOptions options in
  let n := blockSize o in
  0 < n ->
  (Z.to_nat (ceilDiv (byteLength p) n) <= fuel)%nat ->
  failed r = false ->
  exists (m : FileMetadata) (info : ExtendedPodInfo) (now : Z)
         (refs : list Reference) (fref : Reference),
    let contents := blockContents p n 0 (List.length refs) in
    let bl := descriptors p n 0 refs in
    outcome r = Ok m
    /\ trace r = uploadEvents acc pod fullPath p o info now refs (blocksReference m) fref
    /\ storeWrites (trace r) = contents ++ [manifestOf bl]
    /\ splitsInto p n contents
    /\ map size bl = map byteLength contents
    /\ fileSize m = byteLength p
    /\ (byteLength p = 2500000 -> n = 1000000 ->
        map size bl = [1000000; 1000000; 500000] /\ fileSize m = 2500000).
Proof.
  cbv zeta. intros Hn Hfuel Hfail.
  assert (Hnz : blockSize (mergeOptions options) <> 0) by lia.
  destruct (uploadData_returns _ handle _ _ _ _ _ _ _ _
              (remaining_nonzero _ _ Hnz) Hfuel Hfail)
    as (m & info & now & refs & fref & Ho & Ht & Hm & Hlen).
  exists m, info, now, refs, fref.
  assert (Hsize : fileSize m = byteLength (payloadBytes data)) by (rewrite Hm; reflexivity).
  pose proof (blockContents_splits (payloadBytes data) _ Hn) as Hsplit.
  rewrite <- Hlen in Hsplit.
  split; [exact Ho|]. split; [exact Ht|].
  split; [rewrite Ht; apply storeWrites_uploadEvents|].
  split; [exact Hsplit|]. split; [apply descriptors_sizes|]. split; [exact Hsize|].
  intros Hp Hbs. split; [|congruence].
  rewrite descriptors_sizes, Hlen, Hp, Hbs.
  change (Z.to_nat (ceilDiv 2500000 1000000)) with 3%nat.
  cbn [blockContents map].
  rewrite !blockAt_length, Hp by lia. reflexivity.
Qed.

Lemma uploadData_splits_payload_witness :
  0 < 2
  /\ (Z.to_nat (ceilDiv (byteLength Mem.bytes5) 2) <= 3)%nat
  /\ failed (Mem.exec Mem.upload5) = false
  /\ exists m,
       outcome (Mem.exec Mem.upload5) = Ok m
       /\ storeWrites (trace (Mem.exec Mem.upload5))
          = [[x61; x62]; [x63; x64]; [x65]]%byte
            ++ [manifestOf (H := Mem.imports)
                  (descriptors (H := Mem.imports) Mem.bytes5 2 0 ["ref0"; "ref1"; "ref2"])]
       /\ fileSize m = 5.
Proof.
  assert (H1 : 0 < 2) by lia.
  assert (H2 : (Z.to_nat (ceilDiv (byteLength Mem.bytes5) 2) <= 3)%nat)
    by (vm_compute; lia).
  assert (H3 : failed (Mem.exec Mem.upload5) = false) by reflexivity.
  repeat split; try assumption.
  destruct (uploadData_splits_payload Mem.handle 3 true "pod" "/a.txt"
              (PBytes Mem.bytes5) (Mem.opts 2) Mem.w0 H1 H2 H3)
    as (m & info & now & refs & fref & Ho & _ & _ & _ & _ & Hs & _).
  exists m. split; [exact Ho|]. split; [reflexivity | exact Hs].
Defined.

(** ** The metadata record (uploadData) *)

Lemma uploadEvents_closing `{Imports} (acc : AccountData) (pod fullPath : string)
    (p : Bytes) (o : DataUploadOptions) (info : ExtendedPodInfo) (now : Z)
    (refs : list Reference) (fref : Reference) (m : FileMetadata) :
  m = uploadedMetadata pod fullPath p o info now (blocksReference m) ->
  uploadEvents acc pod fullPath p o info now refs (blocksReference m) fref
  = [ answered (GetExtendedPodsListByAccountData acc pod) info;
      answered GetUnixTimestamp now ]
    ++ blockEvents (connection acc) p (blockSize o) 0 refs
    ++ closingEvents acc fullPath info (descriptors p (blockSize o) 0 refs) m fref.
Proof. intros Hm. unfold uploadEvents. now rewrite <- Hm. Qed.

(** C2. The record returned by a run of uploadData that does not fail
    carries the schema tag, the one clock value read before the first
    store write in all three time fields, the payload length as fileSize
    (which is the sum of the descriptor sizes), the configured block size,
    and as blocksReference the answer of the manifest upload; descriptor
    [j] is named by [generateBlockName j] and has compressedSize = size. *)
Theorem uploadData_metadata `{Imports} {World : Type}
    (handle : forall op : Op, World -> (string + res op) * World)
    (fuel : nat) (acc : AccountData) (pod fullPath : string)
    (data : Payload) (options : option DataUploadOptions) (w : World) :
  let r := run handle (uploadData fuel acc pod fullPath data options) w in
  let p := payloadBytes data in
  let o := mergeOptions options in
  let n := blockSize o in
  0 < n ->
  (Z.to_nat (ceilDiv (byteLength p) n) <= fuel)%nat ->
  failed r = false ->
  exists (m : FileMetadata) (info : ExtendedPodInfo) (now : Z)
         (refs : list Reference) (fref : Reference),
    let bl := descriptors p n 0 refs in
    outcome r = Ok m
    /\ trace r = [ answered (GetExtendedPodsListByAccountData acc pod) info;
                   answered GetUnixTimestamp now ]
                 ++ blockEvents (connection acc) p n 0 refs
                 ++ closingEvents acc fullPath info bl m fref
    /\ version m = META_VERSION
    /\ creationTime m = now /\ accessTime m = now /\ modificationTime m = now
    /\ fileSize m = byteLength p
    /\ fileSize m = sumSizes bl
    /\ metaBlockSize m = n
    /\ (forall j b, nth_error bl j = Some b ->
          name b = generateBlockName (Z.of_nat j) /\ compressedSize b = size b).
Proof.
  cbv zeta. intros Hn Hfuel Hfail.
  assert (Hnz : blockSize (mergeOptions options) <> 0) by lia.
  destruct (uploadData_returns _ handle _ _ _ _ _ _ _ _
              (remaining_nonzero _ _ Hnz) Hfuel Hfail)
    as (m & info & now & refs & fref & Ho & Ht & Hm & Hlen).
  exists m, info, now, refs, fref.
  split; [exact Ho|].
  split; [rewrite Ht; now apply uploadEvents_closing|].
  split; [rewrite Hm; reflexivity|].
  split; [rewrite Hm; reflexivity|].
  split; [rewrite Hm; reflexivity|].
  split; [rewrite Hm; reflexivity|].
  split; [rewrite Hm; reflexivity|].
  split.
  - rewrite descriptors_sum, Hlen.
    destruct (blockContents_splits (payloadBytes data) _ Hn) as (_ & _ & _ & ->).
    rewrite Hm. reflexivity.
  - split; [rewrite Hm; reflexivity|].
    intros j b Hb. destruct (descriptors_nth _ _ _ _ _ _ Hb) as (Hname & _ & Hc & _).
    split; assumption.
Qed.

Lemma uploadData_metadata_witness :
  0 < 2
  /\ (Z.to_nat (ceilDiv (byteLength Mem.bytes5) 2) <= 3)%nat
  /\ failed (Mem.exec Mem.upload5) = false
  /\ exists m,
       outcome (Mem.exec Mem.upload5) = Ok m
       /\ version m = "2.0.0"
       /\ fileSize m = 5
       /\ metaBlockSize m = 2.
Proof.
  assert (H1 : 0 < 2) by lia.
  assert (H2 : (Z.to_nat (ceilDiv (byteLength Mem.bytes5) 2) <= 3)%nat)
    by (vm_compute; lia).
  assert (H3 : failed (Mem.exec Mem.upload5) = false) by reflexivity.
  split; [exact H1|]. split; [exact H2|]. split; [exact H3|].
  destruct (uploadData_metadata Mem.handle 3 true "pod" "/a.txt"
              (PBytes Mem.bytes5) (Mem.opts 2) Mem.w0 H1 H2 H3)
    as (m & info & now & refs & fref & Ho & _ & Hv & _ & _ & _ & Hs & _ & Hb & _).
  exists m. split; [exact Ho|]. split; [exact Hv|]. split; [exact Hs | exact Hb].
Defined.

(** ** Uploads without blocks *)

(** When the loop test fails at once, the run goes straight to the
    manifest of the empty collection. *)
Lemma uploadData_no_blocks `{Imports} {World : Type}
    (handle : forall op : Op, World -> (string + res op) * World)
    (fuel : nat) (acc : AccountData) (pod fullPath : string)
    (data : Payload) (options : option DataUploadOptions) (w : World) :
  let r := run handle (uploadData fuel acc pod fullPath data options) w in
  let p := payloadBytes data in
  let o := mergeOptions options in
  remaining (Math_ceil_div (byteLength p) (blockSize o)) 0 = Some O ->
  failed r = false ->
  exists (m : FileMetadata) (info : ExtendedPodInfo) (now : Z) (fref : Reference),
    outcome r = Ok m
    /\ trace r = [ answered (GetExtendedPodsListByAccountData acc pod) info;
                   answered GetUnixTimestamp now ]
                 ++ closingEvents acc fullPath info [] m fref
    /\ storeWrites (trace r) = [manifestOf []]
    /\ fileSize m = byteLength p
    /\ metaBlockSize m = blockSize o.
Proof.
  cbv zeta. intros Hrem Hfail.
  destruct (uploadData_returns _ handle _ _ _ _ _ _ _ _ Hrem (Nat.le_0_l fuel) Hfail)
    as (m & info & now & refs & fref & Ho & Ht & Hm & Hlen).
  destruct refs as [|? ?]; [|discriminate Hlen].
  exists m, info, now, fref.
  split; [exact Ho|].
  split; [rewrite Ht; now rewrite (uploadEvents_closing _ _ _ _ _ _ _ _ _ _ Hm)|].
  split; [rewrite Ht; now rewrite storeWrites_uploadEvents|].
  split; rewrite Hm; reflexivity.
Qed.

(** C10. For a zero-length payload, whatever the block size and the fuel,
    a run of uploadData that does not fail uploads no block, uploads the
    manifest of the empty collection, registers the directory entry,
    publishes the metadata and returns a record with fileSize 0. *)
Theorem uploadData_empty_payload `{Imports} {World : Type}
    (handle : forall op : Op, World -> (string + res op) * World)
    (fuel : nat) (acc : AccountData) (pod fullPath : string)
    (data : Payload) (options : option DataUploadOptions) (w : World) :
  let r := run handle (uploadData fuel acc pod fullPath data options) w in
  payloadBytes data = [] ->
  failed r = false ->
  exists (m : FileMetadata) (info : ExtendedPodInfo) (now : Z) (fref : Reference),
    outcome r = Ok m
    /\ trace r = [ answered (GetExtendedPodsListByAccountData acc pod) info;
                   answered GetUnixTimestamp now ]
                 ++ closingEvents acc fullPath info [] m fref
    /\ storeWrites (trace r) = [manifestOf []]
    /\ fileSize m = 0.
Proof.
  cbv zeta. intros Hp Hfail.
  destruct (uploadData_no_blocks handle fuel acc pod fullPath data options w)
    as (m & info & now & fref & Ho & Ht & Hs & Hsize & _).
  - rewrite Hp. apply remaining_empty.
  - exact Hfail.
  - exists m, info, now, fref. rewrite Hp in Hsize. auto.
Qed.

Lemma uploadData_empty_payload_witness :
  payloadBytes (H := Mem.imports) (PString "") = []
  /\ failed (Mem.exec Mem.uploadEmpty) = false
  /\ exists m,
       outcome (Mem.exec Mem.uploadEmpty) = Ok m
       /\ storeWrites (trace (Mem.exec Mem.uploadEmpty))
          = [[x5b; x5d]%byte]
       /\ fileSize m = 0.
Proof.
  assert (H1 : payloadBytes (H := Mem.imports) (PString "") = []) by reflexivity.
  assert (H2 : failed (Mem.exec Mem.uploadEmpty) = false)
    by reflexivity.
  split; [exact H1|]. split; [exact H2|].
  destruct (uploadData_empty_payload Mem.handle 0 true "pod" "/empty" (PString "") None
              Mem.w0 H1 H2)
    as (m & info & now & fref & Ho & _ & Hs & Hsize).
  exists m. split; [exact Ho|]. split; [reflexivity | exact Hsize].
Defined.

(** ** Block sizes that are not positive *)

(** C5 as stated fails: five bytes with block size -1 are accepted.  No
    block is written, the manifest of the empty collection is, and the
    record returned claims five bytes. *)
Lemma uploadData_negative_blockSize_accepted :
  blockSize (mergeOptions (Mem.opts (-1))) <= 0
  /\ outcome (Mem.exec Mem.uploadNegative)
     = Ok {| version := "2.0.0"; podAddress := [xaa; xbb]%byte; podName := "pod";
             filePath := "/"; fileName := "/a.txt"; fileSize := 5;
             metaBlockSize := -1; metaContentType := ""; compression := "";
             creationTime := 1700000000; accessTime := 1700000000;
             modificationTime := 1700000000; blocksReference := "ref0" |}
  /\ storeWrites (trace (Mem.exec Mem.uploadNegative)) = [[x5b; x5d]%byte]
  /\ Mem.stored (final (Mem.exec Mem.uploadNegative)) = [[x5b; x5d]%byte].
Proof. split; [simpl; lia|]. repeat split. Qed.

(** C5, amended.  uploadData does not check the block size.  With a
    negative block size, or with block size zero and an empty payload, the
    loop test fails at once: a run that does not fail uploads no block,
    uploads the manifest of the empty collection, registers the entry,
    publishes, and returns a record with the payload length and the block
    size as configured. *)
Theorem uploadData_blockSize_unchecked `{Imports} {World : Type}
    (handle : forall op : Op, World -> (string + res op) * World)
    (fuel : nat) (acc : AccountData) (pod fullPath : string)
    (data : Payload) (options : option DataUploadOptions) (w : World) :
  let r := run handle (uploadData fuel acc pod fullPath data options) w in
  let p := payloadBytes data in
  let o := mergeOptions options in
  blockSize o <= 0 ->
  blockSize o < 0 \/ p = [] ->
  failed r = false ->
  exists (m : FileMetadata) (info : ExtendedPodInfo) (now : Z) (fref : Reference),
    outcome r = Ok m
    /\ trace r = [ answered (GetExtendedPodsListByAccountData acc pod) info;
                   answered GetUnixTimestamp now ]
                 ++ closingEvents acc fullPath info [] m fref
    /\ storeWrites (trace r) = [manifestOf []]
    /\ fileSize m = byteLength p
    /\ metaBlockSize m = blockSize o.
Proof.
  cbv zeta. intros _ Hcase Hfail.
  apply uploadData_no_blocks; [|exact Hfail].
  destruct Hcase as [Hneg|Hp].
  - rewrite remaining_nonzero by lia. f_equal.
    assert (0 <= byteLength (payloadBytes data)) by (unfold byteLength; lia).
    pose proof (ceilDiv_negative _ _ H0 Hneg). lia.
  - rewrite Hp. apply remaining_empty.
Qed.

Lemma uploadData_blockSize_unchecked_witness :
  blockSize (mergeOptions (Mem.opts (-1))) <= 0
  /\ (blockSize (mergeOptions (Mem.opts (-1))) < 0
      \/ payloadBytes (H := Mem.imports) (PBytes Mem.bytes5) = [])
  /\ failed (Mem.exec Mem.uploadNegative) = false
  /\ exists m,
       outcome (Mem.exec Mem.uploadNegative) = Ok m
       /\ fileSize m = 5
       /\ metaBlockSize m = -1.
Proof.
  assert (H1 : blockSize (mergeOptions (Mem.opts (-1))) <= 0) by (simpl; lia).
  assert (H2 : blockSize (mergeOptions (Mem.opts (-1))) < 0
               \/ payloadBytes (H := Mem.imports) (PBytes Mem.bytes5) = [])
    by (left; simpl; lia).
  assert (H3 : failed (Mem.exec Mem.uploadNegative) = false) by reflexivity.
  split; [exact H1|]. split; [exact H2|]. split; [exact H3|].
  destruct (uploadData_blockSize_unchecked Mem.handle 0 true "pod" "/a.txt"
              (PBytes Mem.bytes5) (Mem.opts (-1)) Mem.w0 H1 H2 H3)
    as (m & info & now & fref & Ho & _ & _ & Hs & Hb).
  exists m. split; [exact Ho|]. split; [exact Hs | exact Hb].
Defined.

(** With block size zero and a payload that is not empty the loop test
    never fails: no amount of fuel lets the run complete. *)
Lemma uploadData_zero_blockSize_never_returns `{Imports} {World : Type}
    (handle : forall op : Op, World -> (string + res op) * World)
    (fuel : nat) (acc : AccountData) (pod fullPath : string)
    (data : Payload) (options : option DataUploadOptions) (w : World) (m : FileMetadata) :
  blockSize (mergeOptions options) = 0 ->
  payloadBytes data <> [] ->
  outcome (run handle (uploadData fuel acc pod fullPath data options) w) <> Ok m.
Proof.
  intros Hbs Hp Ho.
  destruct (uploadData_ok _ handle _ _ _ _ _ _ _ _ Ho) as (_ & _ & refs & _ & _ & _ & Hrem & _).
  rewrite Hbs in Hrem. unfold Math_ceil_div in Hrem. simpl in Hrem.
  destruct (byteLength (payloadBytes data) =? 0) eqn:E; [|discriminate].
  apply Z.eqb_eq in E. unfold byteLength in E.
  destruct (payloadBytes data); [contradiction | discriminate].
Qed.

Example uploadData_zero_blockSize_pending :
  outcome (Mem.exec (Mem.uploadZero 4)) = Pending
  /\ storeWrites (trace (Mem.exec (Mem.uploadZero 4))) = [[]; []; []; []].
Proof. split; reflexivity. Qed.

(** ** The order of the remote steps (uploadData) *)

Lemma follow_after_publish `{Imports} (n : option nat) (tr : list Event) (ph : Phase) :
  follow n FeedPublished tr = Some ph -> tr = [].
Proof. destruct tr as [|ev tr]; [reflexivity | discriminate]. Qed.

(** In an accepted trace nothing follows a feed publish, and a feed
    publish comes directly after the registration of the entry, which
    comes directly after a store write. *)
Lemma follow_publish_last `{Imports} (n : option nat) (pre : list Event) :
  forall (ph ph' : Phase) (ev : Event) (post : list Event),
    follow n ph (pre ++ ev :: post) = Some ph' ->
    isFeedPublish (evOp ev) = true ->
    post = [] /\ ph' = FeedPublished.
Proof.
  induction pre as [|e pre IH]; intros ph ph' ev post Hf Hev; simpl in Hf.
  - destruct (evOp ev); try discriminate Hev.
    destruct ph; try discriminate Hf. simpl in Hf.
    pose proof (follow_after_publish _ _ _ Hf) as ->.
    simpl in Hf. injection Hf as <-. auto.
  - destruct (advance n ph (evOp e)) as [ph1|]; [|discriminate Hf].
    eapply IH; eassumption.
Qed.

Lemma follow_register_after_manifest `{Imports} (n : option nat) (pre : list Event) :
  forall (ph ph' : Phase) (ev : Event) (post : list Event),
    follow n ph (pre ++ ev :: post) = Some ph' ->
    isEntryAdd (evOp ev) = true ->
    ph = ManifestStored /\ pre = []
    \/ exists pre' up, pre = pre' ++ [up] /\ isStoreWrite (evOp up) = true.
Proof.
  induction pre as [|e pre IH]; intros ph ph' ev post Hf Hev; simpl in Hf.
  - left. destruct (evOp ev); try discriminate Hev.
    destruct ph; try discriminate Hf. auto.
  - right. destruct (advance n ph (evOp e)) as [ph1|] eqn:Ha; [|discriminate Hf].
    destruct (IH _ _ _ _ Hf Hev) as [(-> & ->)|(pre' & up & -> & Hup)].
    + exists [], e. split; [reflexivity|].
      destruct ph, (evOp e); try discriminate Ha; try reflexivity.
    + exists (e :: pre'), up. auto.
Qed.

(** C6. In every execution of uploadData, completed or not, the calls are
    made in the order of the acceptor: the pod lookup, the clock, the
    block uploads, then the manifest upload only after all blocks, then
    the registration of the entry, then the feed publish, and nothing
    after it.  In a completed execution the manifest lists the
    descriptors that hold the references the block uploads answered, and
    the published record holds the reference the manifest upload
    answered. *)
Theorem uploadData_step_order `{Imports} {World : Type}
    (handle : forall op : Op, World -> (string + res op) * World)
    (fuel : nat) (acc : AccountData) (pod fullPath : string)
    (data : Payload) (options : option DataUploadOptions) (w : World) :
  let r := run handle (uploadData fuel acc pod fullPath data options) w in
  let p := payloadBytes data in
  let o := mergeOptions options in
  let n := remaining (Math_ceil_div (byteLength p) (blockSize o)) 0 in
  (exists ph, follow n Started (trace r) = Some ph)
  /\ (forall pre ev post,
        trace r = pre ++ ev :: post -> isFeedPublish (evOp ev) = true -> post = [])
  /\ (forall pre ev post,
        trace r = pre ++ ev :: post -> isEntryAdd (evOp ev) = true ->
        exists pre' up, pre = pre' ++ [up] /\ isStoreWrite (evOp up) = true)
  /\ (forall m, outcome r = Ok m ->
        exists (info : ExtendedPodInfo) (now : Z) (refs : list Reference)
               (fref : Reference),
          n = Some (List.length refs)
          /\ trace r
             = [ answered (GetExtendedPodsListByAccountData acc pod) info;
                 answered GetUnixTimestamp now ]
               ++ blockEvents (connection acc) p (blockSize o) 0 refs
               ++ [ answered (UploadBytes (connection acc)
                                (manifestOf (descriptors p (blockSize o) 0 refs)))
                      {| resReference := blocksReference m |};
                    answered (AddEntryToDirectory (connection acc) (podWallet info)
                                (path (extractPathInfo fullPath))
                                (filename (extractPathInfo fullPath)) true) tt;
                    answered (WriteFeedData (connection acc) fullPath
                                (getFileMetadataRawBytes m)
                                (privateKey (podWallet info))) fref ]
          /\ map reference (descriptors p (blockSize o) 0 refs) = refs).
Proof.
  cbv zeta.
  destruct (uploadData_in_order _ handle fuel acc pod fullPath data options w) as (ph & Hf).
  cbv zeta in Hf.
  split; [eauto|]. split; [|split].
  - intros pre ev post Ht Hev. rewrite Ht in Hf.
    now destruct (follow_publish_last _ _ _ _ _ _ Hf Hev).
  - intros pre ev post Ht Hev. rewrite Ht in Hf.
    destruct (follow_register_after_manifest _ _ _ _ _ _ Hf Hev) as [(E & _)|?];
      [discriminate E | assumption].
  - intros m Ho.
    destruct (uploadData_ok _ handle _ _ _ _ _ _ _ _ Ho)
      as (info & now & refs & fref & Ht & Hm & Hrem & _).
    exists info, now, refs, fref.
    split; [exact Hrem|]. split.
    + rewrite Ht. now rewrite (uploadEvents_closing _ _ _ _ _ _ _ _ _ _ Hm).
    + clear. generalize 0 at 1. induction refs as [|r refs IH]; intros i; simpl;
        [reflexivity | now rewrite IH].
Qed.

Lemma uploadData_step_order_witness :
  exists m refs,
    outcome (Mem.exec Mem.upload5) = Ok m
    /\ blocksReference m = "ref3"
    /\ refs = ["ref0"; "ref1"; "ref2"]
    /\ follow (Some (List.length refs)) Started (trace (Mem.exec Mem.upload5))
       = Some FeedPublished.
Proof.
  destruct (uploadData_step_order Mem.handle 3 true "pod" "/a.txt"
              (PBytes Mem.bytes5) (Mem.opts 2) Mem.w0) as (_ & _ & _ & Hok).
  destruct (Hok _ eq_refl) as (info & now & refs & fref & Hn & Ht & Hr).
  eexists. exists ["ref0"; "ref1"; "ref2"].
  split; [reflexivity|]. split; [reflexivity|]. split; reflexivity.
Defined.

(** ** Methods that assert an account, and methods that do not *)
Section Sharing.

Context `{Imports}.
Variable World : Type.
Variable handle : forall op : Op, World -> (string + res op) * World.

Local Abbreviation exec := (run handle).

(** uploadData, downloadData, delete and share start by asserting the
    account. *)
Lemma account_asserted_first (acc : AccountData) (pod fullPath : string) (w : World) :
  isAccount acc = false ->
  (forall fuel data options,
      exec (uploadData fuel acc pod fullPath data options) w = thrown _ AssertAccount w)
  /\ exec (downloadData acc pod fullPath) w = thrown _ AssertAccount w
  /\ exec (delete acc pod fullPath) w = thrown _ AssertAccount w
  /\ exec (share acc pod fullPath) w = thrown _ AssertAccount w.
Proof.
  intros Hacc.
  repeat split; intros;
    unfold uploadData, downloadData, delete, share, assertAccount; cbv zeta;
    rewrite run_assert, Hacc; reflexivity.
Qed.

Lemma getSharedInfo_run (acc : AccountData) (r : Reference) (w : World) :
  exec (getSharedInfo acc r) w
  = if isEncryptedReference r then
      match handle (GetSharedFileInfo (bee (connection acc)) r) w with
      | (inl msg, w') =>
          {| outcome := Err (Rejected msg); final := w';
             trace := [rejected (GetSharedFileInfo (bee (connection acc)) r) msg] |}
      | (inr info, w') =>
          {| outcome := Ok info; final := w';
             trace := [answered (GetSharedFileInfo (bee (connection acc)) r) info] |}
      end
    else thrown _ AssertEncryptedReference w.
Proof.
  unfold getSharedInfo, assertEncryptedReference. rewrite run_assert.
  destruct (isEncryptedReference r); [|reflexivity].
  unfold await; simpl.
  now destruct (handle (GetSharedFileInfo (bee (connection acc)) r) w) as [[msg|info] w'].
Qed.

End Sharing.

(** ** Malformed references *)

(** C4. A reference that does not have the shape of an encrypted reference
    makes getSharedInfo and downloadFromSharedPod throw from
    assertEncryptedReference with no call made and the world untouched. *)
Theorem malformed_reference_rejected_first `{Imports} {World : Type}
    (handle : forall op : Op, World -> (string + res op) * World)
    (acc : AccountData) (r : Reference) (fullPath : string) (w : World) :
  isEncryptedReference r = false ->
  run handle (getSharedInfo acc r) w = thrown _ AssertEncryptedReference w
  /\ run handle (downloadFromSharedPod acc r fullPath) w
     = thrown _ AssertEncryptedReference w.
Proof.
  intros Hr. split.
  - now rewrite getSharedInfo_run, Hr.
  - unfold downloadFromSharedPod, assertEncryptedReference.
    now rewrite run_assert, Hr.
Qed.

Lemma malformed_reference_rejected_first_witness :
  isEncryptedReference (Imports := Mem.imports) Mem.badRef = false
  /\ Mem.exec (getSharedInfo (H := Mem.imports) false Mem.badRef)
     = thrown _ AssertEncryptedReference Mem.w0
  /\ Mem.exec (downloadFromSharedPod (H := Mem.imports) false Mem.badRef "/docs/a.txt")
     = thrown _ AssertEncryptedReference Mem.w0.
Proof.
  assert (H1 : isEncryptedReference (Imports := Mem.imports) Mem.badRef = false)
    by reflexivity.
  split; [exact H1|].
  exact (malformed_reference_rejected_first Mem.handle false Mem.badRef "/docs/a.txt"
           Mem.w0 H1).
Defined.

(** ** Reading shared files without an account *)

(** C7. With a well-formed reference, getSharedInfo, downloadShared and
    downloadFromSharedPod never throw from assertAccount and never look
    the account up: they fail only when a store call is rejected, and
    they return as soon as the store answers, whatever the account data.
    uploadData, downloadData, delete and share, run without an account,
    throw from assertAccount before any call. *)
Theorem shared_reads_need_no_account `{Imports} {World : Type}
    (handle : forall op : Op, World -> (string + res op) * World)
    (acc : AccountData) (r : Reference) (pod fullPath : string) (w : World) :
  isEncryptedReference r = true ->
  let b := bee (connection acc) in
  let rInfo := run handle (getSharedInfo acc r) w in
  let rFile := run handle (downloadShared acc r) w in
  let rPod := run handle (downloadFromSharedPod acc r fullPath) w in
  (* only a rejected call makes them fail *)
  ((forall e, outcome rInfo = Err e -> exists msg, e = Rejected msg)
   /\ (forall e, outcome rFile = Err e -> exists msg, e = Rejected msg)
   /\ (forall e, outcome rPod = Err e -> exists msg, e = Rejected msg))
  (* the account is never looked up *)
  /\ (callsMade isAccountLookup (trace rInfo) = O
      /\ callsMade isAccountLookup (trace rFile) = O
      /\ callsMade isAccountLookup (trace rPod) = O)
  (* they return what the store answers *)
  /\ (forall info w1,
        handle (GetSharedFileInfo b r) w = (inr info, w1) ->
        rInfo = {| outcome := Ok info; final := w1;
                   trace := [answered (GetSharedFileInfo b r) info] |}
        /\ forall d w2,
             handle (DownloadData b (combine (file_path (meta info)) (file_name (meta info)))
                       (prepareEthAddress (source_address info))
                       (downloadOptions (connection acc))) w1 = (inr d, w2) ->
             outcome rFile = Ok (wrapBytesWithHelpers d))
  /\ (forall info w1 d w2,
        handle (GetSharedPodInfo b r) w = (inr info, w1) ->
        handle (DownloadData b fullPath (prepareEthAddress (pod_address info))
                  (downloadOptions (connection acc))) w1 = (inr d, w2) ->
        outcome rPod = Ok (wrapBytesWithHelpers d))
  (* unlike the methods bound to an account *)
  /\ (isAccount acc = false ->
      (forall fuel data options,
          run handle (uploadData fuel acc pod fullPath data options) w
          = thrown _ AssertAccount w)
      /\ run handle (downloadData acc pod fullPath) w = thrown _ AssertAccount w
      /\ run handle (delete acc pod fullPath) w = thrown _ AssertAccount w
      /\ run handle (share acc pod fullPath) w = thrown _ AssertAccount w).
Proof.
  intros Hr. cbv zeta.
  assert (Hfile : run handle (downloadShared acc r) w
                  = andThen (run handle (getSharedInfo acc r) w)
                      (fun info w' =>
                         run handle
                           (bind (await (DownloadData (bee (connection acc))
                                           (combine (file_path (meta info))
                                              (file_name (meta info)))
                                           (prepareEthAddress (source_address info))
                                           (downloadOptions (connection acc))))
                              (fun d => Ret (wrapBytesWithHelpers d))) w')).
  { unfold downloadShared. apply run_bind. }
  assert (Hpod : run handle (downloadFromSharedPod acc r fullPath) w
                 = run handle
                     (bind (await (GetSharedPodInfo (bee (connection acc)) r))
                        (fun info =>
                           bind (await (DownloadData (bee (connection acc)) fullPath
                                          (prepareEthAddress (pod_address info))
                                          (downloadOptions (connection acc))))
                             (fun d => Ret (wrapBytesWithHelpers d)))) w).
  { unfold downloadFromSharedPod, assertEncryptedReference.
    now rewrite run_assert, Hr. }
  rewrite Hfile, Hpod, getSharedInfo_run, Hr. unfold andThen.
  rewrite run_await.
  split; [|split; [|split; [|split]]].
  - repeat split; intros e;
      repeat (rewrite ?run_await;
              match goal with
              | |- context [handle ?op ?w0] =>
                  destruct (handle op w0) as [[?|?] ?]; simpl
              end);
      first [discriminate | intros [= <-]; eauto].
  - repeat split;
      repeat (rewrite ?run_await;
              match goal with
              | |- context [handle ?op ?w0] =>
                  destruct (handle op w0) as [[?|?] ?]; simpl
              end); reflexivity.
  - intros info w1 ->. split; [reflexivity|].
    intros d w2. simpl. now intros ->.
  - intros info w1 d w2 ->. simpl. now intros ->.
  - apply account_asserted_first.
Qed.

Lemma shared_reads_need_no_account_witness :
  isEncryptedReference (Imports := Mem.imports) Mem.encRef = true
  /\ isAccount (Imports := Mem.imports) false = false
  /\ outcome (Mem.exec Mem.sharedInfo)
     = Ok (@mkFileShareInfo Mem.imports Mem.sharedMeta "0xabc")
  /\ outcome (Mem.exec Mem.sharedFile) = Ok Mem.bytes5
  /\ outcome (Mem.exec Mem.sharedPodFile) = Ok Mem.bytes5
  /\ Mem.exec (@downloadData Mem.imports false "pod" "/docs/a.txt")
     = thrown _ AssertAccount Mem.w0.
Proof.
  assert (H1 : isEncryptedReference (Imports := Mem.imports) Mem.encRef = true)
    by reflexivity.
  destruct (shared_reads_need_no_account Mem.handle false Mem.encRef "pod" "/docs/a.txt"
              Mem.w0 H1) as (_ & _ & Hinfo & Hpod & Hbound).
  destruct (Hinfo (@mkFileShareInfo Mem.imports Mem.sharedMeta "0xabc") Mem.w0 eq_refl)
    as (Hi & Hfile).
  destruct (Hbound eq_refl) as (_ & Hd & _).
  split; [exact H1|]. split; [reflexivity|].
  split; [unfold Mem.exec, Mem.sharedInfo; rewrite Hi; reflexivity|].
  split; [exact (Hfile Mem.bytes5 Mem.w0 eq_refl)|].
  split; [exact (Hpod (mkPodShareInfo Mem.encRef) Mem.w0 Mem.bytes5 Mem.w0 eq_refl eq_refl)|].
  exact Hd.
Defined.

(** ** saveShared *)

(** Every run of saveShared: the pod name is checked, then the share is
    resolved, then the pod is looked up with the account data as they
    are, then the entry is registered and the record published. *)
Lemma saveShared_run `{Imports} {World : Type}
    (handle : forall op : Op, World -> (string + res op) * World)
    (acc : AccountData) (pod parentPath : string) (r : Reference)
    (options : option FileReceiveOptions) (w : World) :
  let rs := run handle (saveShared acc pod parentPath r options) w in
  let conn := connection acc in
  (exists a, (a = AssertPodName \/ a = AssertEncryptedReference) /\ rs = thrown _ a w)
  \/ (isPodName pod = true /\ isEncryptedReference r = true /\
      ((exists msg, outcome rs = Err (Rejected msg) /\ storeWrites (trace rs) = [])
       \/ exists sharedInfo info fref,
            let fname := receivedName options (file_name (meta sharedInfo)) in
            let m := updateFileMetadata (rawFileMetadataToFileMetadata (meta sharedInfo))
                       pod parentPath fname (extPodAddress info) in
            outcome rs = Ok m
            /\ trace rs
               = [ answered (GetSharedFileInfo (bee conn) r) sharedInfo;
                   answered (GetExtendedPodsListByAccountData acc pod) info;
                   answered (AddEntryToDirectory conn (podWallet info) parentPath fname true) tt;
                   answered (WriteFeedData conn (combine parentPath fname)
                               (getFileMetadataRawBytes m)
                               (privateKey (podWallet info))) fref ])).
Proof.
  cbv zeta. unfold saveShared, assertPodName. rewrite run_assert.
  destruct (isPodName pod); [|left; exists AssertPodName; auto].
  rewrite run_bind, getSharedInfo_run. unfold andThen.
  destruct (isEncryptedReference r); [|left; exists AssertEncryptedReference; auto].
  right. split; [reflexivity|]. split; [reflexivity|].
  destruct (handle _ w) as [[msg|sharedInfo] w1]; simpl; [left; eauto|].
  destruct (handle _ w1) as [[msg|info] w2]; simpl; [left; eauto|].
  destruct (handle _ w2) as [[msg|u] w3]; simpl; [left; eauto|].
  destruct (handle _ w3) as [[msg|fref] w4]; simpl; [left; eauto|].
  right. exists sharedInfo, info, fref. destruct u. split; reflexivity.
Qed.

(** C9. saveShared never throws from assertAccount: it checks the pod
    name (an invalid one stops it before any call), resolves the share,
    and on a run that does not fail looks the pod up with the account data
    as they are, registers the entry and publishes.  Without an account,
    uploadData, downloadData, delete and share throw from assertAccount
    before any call. *)
Theorem saveShared_asserts_no_account `{Imports} {World : Type}
    (handle : forall op : Op, World -> (string + res op) * World)
    (acc : AccountData) (pod parentPath fullPath : string) (r : Reference)
    (options : option FileReceiveOptions) (w : World) :
  let rs := run handle (saveShared acc pod parentPath r options) w in
  let conn := connection acc in
  outcome rs <> Err (AssertionFailed AssertAccount)
  /\ (isPodName pod = false -> rs = thrown _ AssertPodName w)
  /\ (failed rs = false ->
      exists (m : FileMetadata) (sharedInfo : FileShareInfo) (info : ExtendedPodInfo)
             (fref : Reference),
        outcome rs = Ok m
        /\ trace rs
           = [ answered (GetSharedFileInfo (bee conn) r) sharedInfo;
               answered (GetExtendedPodsListByAccountData acc pod) info;
               answered (AddEntryToDirectory conn (podWallet info) parentPath
                           (fileName m) true) tt;
               answered (WriteFeedData conn (combine parentPath (fileName m))
                           (getFileMetadataRawBytes m)
                           (privateKey (podWallet info))) fref ])
  /\ (isAccount acc = false ->
      (forall fuel data options',
          run handle (uploadData fuel acc pod fullPath data options') w
          = thrown _ AssertAccount w)
      /\ run handle (downloadData acc pod fullPath) w = thrown _ AssertAccount w
      /\ run handle (delete acc pod fullPath) w = thrown _ AssertAccount w
      /\ run handle (share acc pod fullPath) w = thrown _ AssertAccount w).
Proof.
  cbv zeta.
  split; [|split; [|split]].
  - destruct (saveShared_run handle acc pod parentPath r options w)
      as [(a & Ha & ->)|(_ & _ & [(msg & -> & _)|(s & i & f & -> & _)])];
      try discriminate.
    destruct Ha as [-> | ->]; discriminate.
  - intros Hpod. unfold saveShared, assertPodName. now rewrite run_assert, Hpod.
  - intros Hfail.
    destruct (saveShared_run handle acc pod parentPath r options w)
      as [(a & Ha & E)|(_ & _ & [(msg & E & _)|(s & i & f & Ho & Ht)])].
    + rewrite E in Hfail. discriminate Hfail.
    + unfold failed in Hfail. rewrite E in Hfail. discriminate Hfail.
    + eexists. exists s, i, f. split; [exact Ho|]. exact Ht.
  - apply account_asserted_first.
Qed.

Lemma saveShared_asserts_no_account_witness :
  isAccount (Imports := Mem.imports) false = false
  /\ failed (Mem.exec (Mem.saveIt None)) = false
  /\ (exists m, outcome (Mem.exec (Mem.saveIt None)) = Ok m)
  /\ callsMade isAccountLookup (trace (Mem.exec (Mem.saveIt None))) = 1%nat
  /\ Mem.exec (@share Mem.imports false "pod" "/docs/a.txt") = thrown _ AssertAccount Mem.w0.
Proof.
  assert (H1 : isAccount (Imports := Mem.imports) false = false) by reflexivity.
  assert (H2 : failed (Mem.exec (Mem.saveIt None)) = false) by reflexivity.
  destruct (saveShared_asserts_no_account Mem.handle false "pod" "/inbox" "/docs/a.txt"
              Mem.encRef None Mem.w0) as (_ & _ & Hrun & Hbound).
  destruct (Hrun H2) as (m & _ & _ & _ & Ho & _).
  destruct (Hbound H1) as (_ & _ & _ & Hshare).
  split; [exact H1|]. split; [exact H2|]. split; [exists m; exact Ho|].
  split; [reflexivity | exact Hshare].
Defined.

(** C3.  saveShared writes nothing to the content-addressed store in any
    execution.  A run that does not fail returns the shared record with
    podName, filePath, fileName and podAddress set to the importing pod,
    the parent path, the new name (the rename if one is given, else the
    shared name) and the address of the importing pod, with fileSize,
    blocksReference and creationTime as in the shared record; it
    registers that entry and publishes that record under the key of the
    importing pod. *)
Theorem saveShared_rewrites_location `{Imports} {World : Type}
    (handle : forall op : Op, World -> (string + res op) * World)
    (acc : AccountData) (pod parentPath : string) (r : Reference)
    (options : option FileReceiveOptions) (w : World) :
  let rs := run handle (saveShared acc pod parentPath r options) w in
  let conn := connection acc in
  storeWrites (trace rs) = []
  /\ (failed rs = false ->
      exists (m : FileMetadata) (sharedInfo : FileShareInfo) (info : ExtendedPodInfo)
             (fref : Reference),
        let shared := rawFileMetadataToFileMetadata (meta sharedInfo) in
        outcome rs = Ok m
        /\ trace rs
           = [ answered (GetSharedFileInfo (bee conn) r) sharedInfo;
               answered (GetExtendedPodsListByAccountData acc pod) info;
               answered (AddEntryToDirectory conn (podWallet info) parentPath
                           (fileName m) true) tt;
               answered (WriteFeedData conn (combine parentPath (fileName m))
                           (getFileMetadataRawBytes m)
                           (privateKey (podWallet info))) fref ]
        /\ podName m = pod
        /\ filePath m = parentPath
        /\ fileName m = match options with
                        | Some {| optName := Some renamed |} => renamed
                        | _ => file_name (meta sharedInfo)
                        end
        /\ podAddress m = extPodAddress info
        /\ fileSize m = fileSize shared
        /\ blocksReference m = blocksReference shared
        /\ creationTime m = creationTime shared).
Proof.
  cbv zeta.
  destruct (saveShared_run handle acc pod parentPath r options w)
    as [(a & Ha & E)|(_ & _ & [(msg & E & Hs)|(s & i & f & Ho & Ht)])].
  - rewrite E. split; [reflexivity | discriminate].
  - split; [exact Hs|]. unfold failed. rewrite E. discriminate.
  - split; [rewrite Ht; reflexivity|]. intros _.
    eexists. exists s, i, f. split; [exact Ho|]. split; [exact Ht|].
    simpl. repeat split.
    destruct options as [[[renamed|]]|]; reflexivity.
Qed.

Lemma saveShared_rewrites_location_witness :
  failed (Mem.exec (Mem.saveIt (Some {| optName := Some "b.txt" |}))) = false
  /\ exists m,
       outcome (Mem.exec (Mem.saveIt (Some {| optName := Some "b.txt" |}))) = Ok m
       /\ podName m = "pod" /\ filePath m = "/inbox" /\ fileName m = "b.txt"
       /\ fileSize m = 5 /\ blocksReference m = "ref3" /\ creationTime m = 100.
Proof.
  assert (H1 : failed (Mem.exec (Mem.saveIt (Some {| optName := Some "b.txt" |}))) = false)
    by reflexivity.
  destruct (saveShared_rewrites_location Mem.handle false "pod" "/inbox" Mem.encRef
              (Some {| optName := Some "b.txt" |}) Mem.w0) as (_ & Hrun).
  destruct (Hrun H1) as (m & s & i & f & Ho & _ & Hp & Hd & Hn & _ & _ & _ & _).
  split; [exact H1|].
  exists m. split; [exact Ho|]. split; [exact Hp|]. split; [exact Hd|]. split; [exact Hn|].
  revert Ho. unfold Mem.exec, Mem.saveIt. simpl. intros [= <-]. repeat split.
Defined.

(** ** delete *)

(** C8. delete writes nothing to the content-addressed store and publishes
    no feed in any execution, and asks for at most one removal; a run
    that does not fail made exactly two calls, the pod lookup and one
    removal of the entry of the path.  Whatever part of the world the pod
    lookup and the removal leave alone is the same after delete. *)
Theorem delete_removes_only_entry `{Imports} {World : Type}
    (handle : forall op : Op, World -> (string + res op) * World)
    (acc : AccountData) (pod fullPath : string) (w : World) :
  let r := run handle (delete acc pod fullPath) w in
  let pathInfo := extractPathInfo fullPath in
  (callsMade isStoreWrite (trace r) = O
   /\ callsMade isFeedPublish (trace r) = O
   /\ (callsMade isEntryRemoval (trace r) <= 1)%nat)
  /\ (failed r = false ->
      exists info : ExtendedPodInfo,
        outcome r = Ok tt
        /\ trace r
           = [ answered (GetExtendedPodsListByAccountData acc pod) info;
               answered (RemoveEntryFromDirectory (connection acc) (podWallet info)
                           (path pathInfo) (filename pathInfo) true) tt ]
        /\ callsMade isEntryRemoval (trace r) = 1%nat)
  /\ (forall (T : Type) (view : World -> T),
        (forall op w0, isAccountLookup op || isEntryRemoval op = true ->
                       view (snd (handle op w0)) = view w0) ->
        view (final r) = view w).
Proof.
  cbv zeta. unfold delete, assertAccount, assertFullPathWithName, assertPodName.
  cbv zeta.
  rewrite run_assert. destruct (isAccount acc);
    [|split; [unfold callsMade; repeat split; simpl; lia|split; [discriminate | reflexivity]]].
  rewrite run_assert. destruct (isFullPathWithName fullPath);
    [|split; [unfold callsMade; repeat split; simpl; lia|split; [discriminate | reflexivity]]].
  rewrite run_assert. destruct (isPodName pod);
    [|split; [unfold callsMade; repeat split; simpl; lia|split; [discriminate | reflexivity]]].
  rewrite run_await.
  destruct (handle (GetExtendedPodsListByAccountData acc pod) w) as [[msg|info] w1] eqn:E1.
  - split; [unfold callsMade; repeat split; simpl; lia|]. split; [discriminate|].
    intros T view Hview. simpl.
    specialize (Hview (GetExtendedPodsListByAccountData acc pod) w eq_refl).
    now rewrite E1 in Hview.
  - unfold await. cbn [run].
    destruct (handle (RemoveEntryFromDirectory _ _ _ _ _) w1) as [[msg|u] w2] eqn:E2.
    + split; [unfold callsMade; repeat split; simpl; lia|]. split; [discriminate|].
      intros T view Hview. simpl.
      pose proof (Hview (GetExtendedPodsListByAccountData acc pod) w eq_refl) as V1.
      pose proof (Hview (RemoveEntryFromDirectory (connection acc) (podWallet info)
                           (path (extractPathInfo fullPath))
                           (filename (extractPathInfo fullPath)) true) w1 eq_refl) as V2.
      rewrite E1 in V1. rewrite E2 in V2. simpl in V1, V2. congruence.
    + split; [unfold callsMade; repeat split; simpl; lia|]. split.
      * intros _. exists info. destruct u. repeat split.
      * intros T view Hview. simpl.
        pose proof (Hview (GetExtendedPodsListByAccountData acc pod) w eq_refl) as V1.
        pose proof (Hview (RemoveEntryFromDirectory (connection acc) (podWallet info)
                             (path (extractPathInfo fullPath))
                             (filename (extractPathInfo fullPath)) true) w1 eq_refl) as V2.
        rewrite E1 in V1. rewrite E2 in V2. simpl in V1, V2. congruence.
Qed.

Lemma delete_removes_only_entry_witness :
  failed (Mem.execFrom Mem.w5 Mem.delete5) = false
  /\ Mem.entries Mem.w5 = [("/", "/a.txt")]
  /\ Mem.entries (final (Mem.execFrom Mem.w5 Mem.delete5)) = []
  /\ Mem.stored (final (Mem.execFrom Mem.w5 Mem.delete5)) = Mem.stored Mem.w5
  /\ Mem.feeds (final (Mem.execFrom Mem.w5 Mem.delete5)) = Mem.feeds Mem.w5
  /\ callsMade isEntryRemoval (trace (Mem.execFrom Mem.w5 Mem.delete5)) = 1%nat.
Proof.
  assert (H1 : failed (Mem.execFrom Mem.w5 Mem.delete5) = false) by reflexivity.
  destruct (delete_removes_only_entry Mem.handle true "pod" "/a.txt" Mem.w5)
    as (_ & Hrun & Hframe).
  destruct (Hrun H1) as (info & _ & _ & Hone).
  assert (Hview : forall (op : @Op Mem.imports) (w0 : Mem.World),
             isAccountLookup op || isEntryRemoval op = true ->
             (fun x => (Mem.stored x, Mem.feeds x)) (snd (Mem.handle op w0))
             = (fun x => (Mem.stored x, Mem.feeds x)) w0).
  { intros op w0. destruct op; simpl; try discriminate; intros _.
    - now destruct (Mem.lookup pod (Mem.pods w0)).
    - reflexivity. }
  pose proof (Hframe _ (fun x => (Mem.stored x, Mem.feeds x)) Hview) as Hsame.
  pose proof (f_equal fst Hsame) as Hst.
  pose proof (f_equal snd Hsame) as Hfd.
  split; [exact H1|]. split; [reflexivity|]. split; [reflexivity|].
  split; [exact Hst|]. split; [exact Hfd | exact Hone].
Defined.

(** * Further properties of the class *)

(** ** Which assertion speaks first *)
Section Validation.

Context `{Imports}.
Variable World : Type.
Variable handle : forall op : Op, World -> (string + res op) * World.

Local Abbreviation exec := (run handle).

(** uploadData and downloadData check the pod name before the path: with
    an account, an invalid pod name is what they report, whatever the
    path, the payload and the options; an invalid path is reported only
    for a valid pod name.  Either way no call is made. *)
Theorem upload_download_validation_order (fuel : nat) (acc : AccountData)
    (pod fullPath : string) (data : Payload) (options : option DataUploadOptions)
    (w : World) :
  isAccount acc = true ->
  (isPodName pod = false ->
   exec (uploadData fuel acc pod fullPath data options) w = thrown _ AssertPodName w
   /\ exec (downloadData acc pod fullPath) w = thrown _ AssertPodName w)
  /\ (isPodName pod = true -> isFullPathWithName fullPath = false ->
      exec (uploadData fuel acc pod fullPath data options) w
      = thrown _ AssertFullPathWithName w
      /\ exec (downloadData acc pod fullPath) w = thrown _ AssertFullPathWithName w).
Proof.
  intros Hacc. split.
  - intros Hpod. split;
      unfold uploadData, downloadData, assertAccount, assertPodName; cbv zeta;
      now rewrite run_assert, Hacc, run_assert, Hpod.
  - intros Hpod Hpath. split;
      unfold uploadData, downloadData, assertAccount, assertPodName,
        assertFullPathWithName; cbv zeta;
      now rewrite run_assert, Hacc, run_assert, Hpod, run_assert, Hpath.
Qed.

(** delete and share check the path before the pod name: with an
    account, an invalid path is what they report, whatever the pod name;
    an invalid pod name is reported only for a valid path.  With both
    invalid they report the path where uploadData reports the pod name. *)
Theorem delete_share_validation_order (acc : AccountData) (pod fullPath : string)
    (w : World) :
  isAccount acc = true ->
  (isFullPathWithName fullPath = false ->
   exec (delete acc pod fullPath) w = thrown _ AssertFullPathWithName w
   /\ exec (share acc pod fullPath) w = thrown _ AssertFullPathWithName w)
  /\ (isFullPathWithName fullPath = true -> isPodName pod = false ->
      exec (delete acc pod fullPath) w = thrown _ AssertPodName w
      /\ exec (share acc pod fullPath) w = thrown _ AssertPodName w).
Proof.
  intros Hacc. split.
  - intros Hpath. split;
      unfold delete, share, assertAccount, assertFullPathWithName; cbv zeta;
      now rewrite run_assert, Hacc, run_assert, Hpath.
  - intros Hpath Hpod. split;
      unfold delete, share, assertAccount, assertPodName, assertFullPathWithName;
      cbv zeta;
      now rewrite run_assert, Hacc, run_assert, Hpath, run_assert, Hpod.
Qed.

(** A malformed reference stops downloadShared and saveShared before any
    call; saveShared looks at the pod name first. *)
Theorem malformed_reference_in_saveShared (acc : AccountData) (pod parentPath : string)
    (r : Reference) (options : option FileReceiveOptions) (w : World) :
  isEncryptedReference r = false ->
  exec (downloadShared acc r) w = thrown _ AssertEncryptedReference w
  /\ (isPodName pod = true ->
      exec (saveShared acc pod parentPath r options) w
      = thrown _ AssertEncryptedReference w)
  /\ (isPodName pod = false ->
      exec (saveShared acc pod parentPath r options) w = thrown _ AssertPodName w).
Proof.
  intros Hr. split; [|split].
  - unfold downloadShared. rewrite run_bind, getSharedInfo_run, Hr. reflexivity.
  - intros Hpod. unfold saveShared, assertPodName.
    rewrite run_assert, Hpod, run_bind, getSharedInfo_run, Hr. reflexivity.
  - intros Hpod. unfold saveShared, assertPodName.
    now rewrite run_assert, Hpod.
Qed.

End Validation.

Lemma upload_download_validation_order_witness :
  isAccount (Imports := Mem.imports) true = true
  /\ isPodName (Imports := Mem.imports) "" = false
  /\ isFullPathWithName (Imports := Mem.imports) "a.txt" = false
  /\ Mem.exec Mem.uploadInvalid = thrown _ AssertPodName Mem.w0
  /\ Mem.exec Mem.downloadInvalid = thrown _ AssertPodName Mem.w0.
Proof.
  assert (H1 : isAccount (Imports := Mem.imports) true = true) by reflexivity.
  assert (H2 : isPodName (Imports := Mem.imports) "" = false) by reflexivity.
  destruct (upload_download_validation_order Mem.World Mem.handle 3 true "" "a.txt"
              (PBytes Mem.bytes5) None Mem.w0 H1) as (Hpod & _).
  split; [exact H1|]. split; [exact H2|]. split; [reflexivity|].
  exact (Hpod H2).
Defined.

Lemma delete_share_validation_order_witness :
  isAccount (Imports := Mem.imports) true = true
  /\ isPodName (Imports := Mem.imports) "" = false
  /\ isFullPathWithName (Imports := Mem.imports) "a.txt" = false
  /\ Mem.exec Mem.deleteInvalid = thrown _ AssertFullPathWithName Mem.w0
  /\ Mem.exec Mem.shareInvalid = thrown _ AssertFullPathWithName Mem.w0.
Proof.
  assert (H1 : isAccount (Imports := Mem.imports) true = true) by reflexivity.
  assert (H3 : isFullPathWithName (Imports := Mem.imports) "a.txt" = false) by reflexivity.
  destruct (delete_share_validation_order Mem.World Mem.handle true "" "a.txt" Mem.w0 H1)
    as (Hpath & _).
  split; [exact H1|]. split; [reflexivity|]. split; [exact H3|].
  exact (Hpath H3).
Defined.

Lemma malformed_reference_in_saveShared_witness :
  isEncryptedReference (Imports := Mem.imports) Mem.badRef = false
  /\ Mem.exec Mem.sharedFileBad = thrown _ AssertEncryptedReference Mem.w0
  /\ Mem.exec (Mem.saveBad "pod") = thrown _ AssertEncryptedReference Mem.w0
  /\ Mem.exec (Mem.saveBad "") = thrown _ AssertPodName Mem.w0.
Proof.
  assert (H1 : isEncryptedReference (Imports := Mem.imports) Mem.badRef = false)
    by reflexivity.
  destruct (malformed_reference_in_saveShared Mem.World Mem.handle false "pod" "/inbox"
              Mem.badRef None Mem.w0 H1) as (Hd & Hs & _).
  destruct (malformed_reference_in_saveShared Mem.World Mem.handle false "" "/inbox"
              Mem.badRef None Mem.w0 H1) as (_ & _ & Hp).
  split; [exact H1|]. split; [exact Hd|]. split; [exact (Hs eq_refl) | exact (Hp eq_refl)].
Defined.

(** ** What a failed upload leaves behind *)
Section PartialEffects.

Context `{Imports}.
Variable World : Type.
Variable handle : forall op : Op, World -> (string + res op) * World.

Local Abbreviation exec := (run handle).

Lemma registered_app (a b : list Event) :
  registered (a ++ b) = registered a || registered b.
Proof. apply existsb_app. Qed.

Lemma published_app (a b : list Event) :
  published (a ++ b) = published a || published b.
Proof. apply existsb_app. Qed.

Lemma registered_cons (ev : Event) (l : list Event) :
  registered (ev :: l) = (isEntryAdd (evOp ev) && isAnswered ev) || registered l.
Proof. reflexivity. Qed.

Lemma published_cons (ev : Event) (l : list Event) :
  published (ev :: l) = (isFeedPublish (evOp ev) && isAnswered ev) || published l.
Proof. reflexivity. Qed.

Lemma blockEvents_effects (conn : Connection) (data : Bytes) (bs : Z)
    (refs : list Reference) :
  forall i,
    registered (blockEvents conn data bs i refs) = false
    /\ published (blockEvents conn data bs i refs) = false.
Proof.
  induction refs as [|r refs IH]; intros i; simpl; [auto|]. apply IH.
Qed.

(** How a run of uploadData can end in failure: at an assertion with
    nothing called, or at one rejected call, the last of the trace. *)
Lemma uploadData_failed (fuel : nat) (acc : AccountData) (pod fullPath : string)
    (data : Payload) (options : option DataUploadOptions) (w : World) :
  let r := exec (uploadData fuel acc pod fullPath data options) w in
  failed r = true ->
  (exists a, r = thrown _ a w)
  \/ exists pre op msg,
       trace r = pre ++ [rejected op msg]
       /\ outcome r = Err (Rejected msg)
       /\ published pre = false
       /\ registered pre = isFeedPublish op
       /\ isEntryRemoval op = false.
Proof.
  cbv zeta. unfold uploadData, failed. cbv zeta.
  unfold assertAccount, assertPodName, assertFullPathWithName.
  rewrite run_assert. destruct (isAccount acc); [|left; eexists; reflexivity].
  rewrite run_assert. destruct (isPodName pod); [|left; eexists; reflexivity].
  rewrite run_assert. destruct (isFullPathWithName fullPath); [|left; eexists; reflexivity].
  rewrite run_assert, run_await. intros Hf. right. revert Hf.
  destruct (handle _ w) as [[msg|info] w1];
    [intros _; exists [], (GetExtendedPodsListByAccountData acc pod), msg; auto|].
  rewrite run_await.
  destruct (handle _ w1) as [[msg|now] w2];
    [intros _;
     exists [answered (GetExtendedPodsListByAccountData acc pod) info],
       GetUnixTimestamp, msg; auto|].
  rewrite run_bind. unfold andThen.
  destruct (uploadBlocks_run _ handle (connection acc) (payloadBytes data)
              (blockSize (mergeOptions options))
              (Math_ceil_div (byteLength (payloadBytes data))
                 (blockSize (mergeOptions options)))
              fuel 0 [] w2) as (refs & Hloop).
  cbv zeta in Hloop.
  set (B := blockEvents (connection acc) (payloadBytes data)
              (blockSize (mergeOptions options)) 0 refs) in *.
  destruct (blockEvents_effects (connection acc) (payloadBytes data)
              (blockSize (mergeOptions options)) refs 0) as (HBr & HBp).
  fold B in HBr, HBp.
  set (a1 := answered (GetExtendedPodsListByAccountData acc pod) info).
  set (a2 := answered GetUnixTimestamp now).
  destruct (outcome (exec (uploadBlocks _ _ _ _ _ _ _) w2)) as [bl|e'|].
  - destruct Hloop as (Ht & -> & Hrem). cbv beta zeta. rewrite run_await.
    destruct (handle _ _) as [[msg|mref] w3].
    { intros _. eexists (a1 :: a2 :: B), _, msg.
      cbn [trace logged outcome]. rewrite Ht.
      split; [reflexivity|]. split; [reflexivity|].
      split; [rewrite !published_cons, HBp; reflexivity|].
      split; [rewrite !registered_cons, HBr; reflexivity | reflexivity]. }
    rewrite run_await.
    destruct (handle _ w3) as [[msg|u] w4].
    { intros _. eexists (a1 :: a2 :: B ++ [_]), _, msg.
      cbn [trace logged outcome]. rewrite Ht.
      split; [cbn; now rewrite <- app_assoc|]. split; [reflexivity|].
      split; [rewrite !published_cons, published_app, HBp; reflexivity|].
      split; [rewrite !registered_cons, registered_app, HBr; reflexivity | reflexivity]. }
    rewrite run_await.
    destruct (handle _ w4) as [[msg|fref] w5]; [|discriminate].
    intros _. eexists (a1 :: a2 :: B ++ [_; _]), _, msg.
    cbn [trace logged outcome]. rewrite Ht.
    split; [cbn; now rewrite <- app_assoc|]. split; [reflexivity|].
    split; [rewrite !published_cons, published_app, HBp; reflexivity|].
    split; [rewrite !registered_cons, registered_app, HBr; destruct u; reflexivity
           | reflexivity].
  - destruct Hloop as (msg & -> & Ht & _). intros _.
    eexists (a1 :: a2 :: B), _, msg.
    cbn [trace logged outcome]. rewrite Ht.
    split; [reflexivity|]. split; [reflexivity|].
    split; [rewrite !published_cons, HBp; reflexivity|].
    split; [rewrite !registered_cons, HBr; reflexivity | reflexivity].
  - discriminate.
Qed.

(** A failed uploadData has published nothing, and it has registered the
    directory entry exactly when the call that was rejected is the feed
    publish itself: the entry then names a path whose metadata was never
    published. *)
Theorem uploadData_partial_effects (fuel : nat) (acc : AccountData)
    (pod fullPath : string) (data : Payload) (options : option DataUploadOptions)
    (w : World) :
  let r := exec (uploadData fuel acc pod fullPath data options) w in
  failed r = true ->
  published (trace r) = false
  /\ (registered (trace r) = true ->
      exists pre op msg,
        trace r = pre ++ [rejected op msg] /\ isFeedPublish op = true)
  /\ (forall pre op msg,
        trace r = pre ++ [rejected op msg] -> isFeedPublish op = true ->
        registered (trace r) = true)
  /\ (forall pre op msg,
        trace r = pre ++ [rejected op msg] -> isStoreWrite op = true ->
        registered (trace r) = false).
Proof.
  cbv zeta. intros Hf.
  destruct (uploadData_failed fuel acc pod fullPath data options w Hf)
    as [(a & ->)|(pre & op & msg & Ht & _ & Hp & Hr & _)].
  - split; [reflexivity|]. split; [discriminate|].
    split; intros pre op msg E; destruct pre; discriminate E.
  - assert (Hreg : registered (trace (exec (uploadData fuel acc pod fullPath data options) w))
                   = isFeedPublish op).
    { rewrite Ht, registered_app, Hr. cbn.
      now rewrite andb_false_r, !orb_false_r. }
    assert (Hpub : published (trace (exec (uploadData fuel acc pod fullPath data options) w))
                   = false).
    { rewrite Ht, published_app, Hp. cbn. now rewrite andb_false_r. }
    split; [exact Hpub|]. split; [|split].
    + intros Hreg'. exists pre, op, msg. split; [exact Ht|]. congruence.
    + intros pre' op' msg' E Hop. rewrite Ht in E.
      apply app_inj_tail in E. destruct E as (_ & E).
      apply (f_equal (fun ev => isFeedPublish (evOp ev))) in E. cbn in E. congruence.
    + intros pre' op' msg' E Hop. rewrite Ht in E.
      apply app_inj_tail in E. destruct E as (_ & E).
      assert (Hs : isStoreWrite op = true).
      { apply (f_equal (fun ev => isStoreWrite (evOp ev))) in E. cbn in E. congruence. }
      rewrite Hreg. destruct op; try discriminate Hs; reflexivity.
Qed.

End PartialEffects.

Lemma uploadData_partial_effects_witness :
  failed (Mem.execLimited 9 Mem.uploadLocked) = true
  /\ published (trace (Mem.execLimited 9 Mem.uploadLocked)) = false
  /\ registered (trace (Mem.execLimited 9 Mem.uploadLocked)) = true
  /\ Mem.entries (final (Mem.execLimited 9 Mem.uploadLocked)) = [("/", "/locked")]
  /\ failed (Mem.execLimited 2 Mem.upload5) = true
  /\ registered (trace (Mem.execLimited 2 Mem.upload5)) = false.
Proof.
  assert (H1 : failed (Mem.execLimited 9 Mem.uploadLocked) = true) by reflexivity.
  assert (H2 : failed (Mem.execLimited 2 Mem.upload5) = true) by reflexivity.
  destruct (uploadData_partial_effects Mem.World (Mem.handleLimited 9) 3 true "pod" "/locked"
              (PBytes Mem.bytes5) (Mem.opts 2) Mem.w0 H1) as (Hp & _ & Hfeed & _).
  destruct (uploadData_partial_effects Mem.World (Mem.handleLimited 2) 3 true "pod" "/a.txt"
              (PBytes Mem.bytes5) (Mem.opts 2) Mem.w0 H2) as (_ & _ & _ & Hstore).
  split; [exact H1|]. split; [exact Hp|].
  split.
  { apply (Hfeed (removelast (trace (Mem.execLimited 9 Mem.uploadLocked)))
             (evOp (last (trace (Mem.execLimited 9 Mem.uploadLocked))
                      (@answered Mem.imports GetUnixTimestamp 0)))
             "feed locked"); reflexivity. }
  split; [reflexivity|]. split; [exact H2|].
  apply (Hstore (removelast (trace (Mem.execLimited 2 Mem.upload5)))
           (evOp (last (trace (Mem.execLimited 2 Mem.upload5))
                    (@answered Mem.imports GetUnixTimestamp 0)))
           "store full"); reflexivity.
Defined.

(** ** Block boundaries *)
Section Boundaries.

Context `{Imports}.
Variable World : Type.
Variable handle : forall op : Op, World -> (string + res op) * World.

Local Abbreviation exec := (run handle).

Lemma ceilDiv_one (len n : Z) : 0 < len <= n -> ceilDiv len n = 1.
Proof.
  intros Hl. destruct (ceilDiv_bounds len n ltac:(lia) ltac:(lia)) as (H0 & H1 & H2).
  nia.
Qed.

Lemma ceilDiv_multiple (k n : Z) : 0 < n -> ceilDiv (k * n) n = k.
Proof.
  intros Hn. unfold ceilDiv.
  replace (- (k * n)) with ((- k) * n) by lia.
  rewrite Z.div_mul by lia. lia.
Qed.

Lemma blockAt_whole (p : Bytes) (n : Z) : 0 < n -> byteLength p <= n -> blockAt p n 0 = p.
Proof.
  intros Hn Hp. rewrite blockAt_firstn by lia. simpl.
  apply firstn_all2. unfold byteLength in Hp. lia.
Qed.

(** A payload that is not empty and not longer than the block size is
    stored as one block, the payload itself, followed by the manifest of
    its one descriptor. *)
Theorem uploadData_single_block (fuel : nat) (acc : AccountData) (pod fullPath : string)
    (data : Payload) (options : option DataUploadOptions) (w : World) :
  let r := exec (uploadData fuel acc pod fullPath data options) w in
  let p := payloadBytes data in
  let n := blockSize (mergeOptions options) in
  0 < byteLength p <= n ->
  (1 <= fuel)%nat ->
  failed r = false ->
  exists (m : FileMetadata) (ref : Reference),
    outcome r = Ok m
    /\ storeWrites (trace r) = [p; manifestOf [descriptor p n 0 ref]]
    /\ size (descriptor p n 0 ref) = byteLength p
    /\ name (descriptor p n 0 ref) = generateBlockName 0.
Proof.
  cbv zeta. intros Hp Hfuel Hfail.
  assert (Hnz : blockSize (mergeOptions options) <> 0) by lia.
  pose proof (remaining_nonzero (byteLength (payloadBytes data)) _ Hnz) as Hrem.
  rewrite (ceilDiv_one _ _ Hp) in Hrem.
  destruct (uploadData_returns _ handle _ _ _ _ _ _ _ _ Hrem Hfuel Hfail)
    as (m & info & now & refs & fref & Ho & Ht & _ & Hlen).
  destruct refs as [|ref [|? ?]]; try discriminate Hlen.
  exists m, ref. split; [exact Ho|].
  split; [|split; [|reflexivity]].
  - rewrite Ht, storeWrites_uploadEvents. simpl.
    now rewrite blockAt_whole by lia.
  - simpl. now rewrite blockAt_whole by lia.
Qed.

(** A payload of exactly [k] block sizes is stored as [k] blocks of
    exactly the block size: there is no short block and no empty block at
    the end. *)
Theorem uploadData_exact_multiple (fuel : nat) (acc : AccountData) (pod fullPath : string)
    (data : Payload) (options : option DataUploadOptions) (w : World) (k : Z) :
  let r := exec (uploadData fuel acc pod fullPath data options) w in
  let p := payloadBytes data in
  let n := blockSize (mergeOptions options) in
  0 < n ->
  byteLength p = k * n ->
  (Z.to_nat k <= fuel)%nat ->
  failed r = false ->
  exists (m : FileMetadata) (refs : list Reference),
    outcome r = Ok m
    /\ Z.of_nat (List.length refs) = k
    /\ storeWrites (trace r)
       = blockContents p n 0 (List.length refs) ++ [manifestOf (descriptors p n 0 refs)]
    /\ Forall (fun b => byteLength b = n) (blockContents p n 0 (List.length refs))
    /\ Forall (fun d => size d = n) (descriptors p n 0 refs).
Proof.
  cbv zeta. intros Hn Hp Hfuel Hfail.
  assert (Hk : 0 <= k).
  { assert (0 <= byteLength (payloadBytes data)) by (unfold byteLength; lia). nia. }
  assert (Hnz : blockSize (mergeOptions options) <> 0) by lia.
  pose proof (remaining_nonzero (byteLength (payloadBytes data)) _ Hnz) as Hrem.
  assert (Hc : ceilDiv (byteLength (payloadBytes data)) (blockSize (mergeOptions options)) = k)
    by (rewrite Hp; now apply ceilDiv_multiple).
  rewrite Hc in Hrem.
  destruct (uploadData_returns _ handle _ _ _ _ _ _ _ _ Hrem Hfuel Hfail)
    as (m & info & now & refs & fref & Ho & Ht & _ & Hlen).
  exists m, refs. split; [exact Ho|]. split; [lia|].
  split; [rewrite Ht; apply storeWrites_uploadEvents|].
  assert (Hall : Forall (fun b => byteLength b = blockSize (mergeOptions options))
                   (blockContents (payloadBytes data) (blockSize (mergeOptions options)) 0
                      (List.length refs))).
  { apply Forall_nth. intros j d Hj. rewrite blockContents_length in Hj.
    rewrite (nth_indep _ d []) by now rewrite blockContents_length.
    rewrite blockContents_nth by assumption.
    rewrite blockAt_length by lia. nia. }
  split; [exact Hall|].
  apply (proj1 (Forall_map size (fun z : Z => z = blockSize (mergeOptions options)) _)).
  rewrite descriptors_sizes.
  apply (proj2 (Forall_map byteLength (fun z : Z => z = blockSize (mergeOptions options)) _)).
  exact Hall.
Qed.

(** The record of a completed upload names the pod it was given, the
    path and the name that extractPathInfo takes from the full path, and
    the address the pod lookup answered; the entry it registered is that
    path and name, as a file, and the record was published under the full
    path with the key of the pod.  Without options the block size is
    1,000,000 and the content type is empty. *)
Theorem uploadData_location (fuel : nat) (acc : AccountData) (pod fullPath : string)
    (data : Payload) (options : option DataUploadOptions) (w : World) (m : FileMetadata) :
  let r := exec (uploadData fuel acc pod fullPath data options) w in
  outcome r = Ok m ->
  exists (info : ExtendedPodInfo) (fref : Reference) (pre : list Event),
    In (answered (GetExtendedPodsListByAccountData acc pod) info) (trace r)
    /\ trace r
       = pre
         ++ [ answered (AddEntryToDirectory (connection acc) (podWallet info)
                          (filePath m) (fileName m) true) tt;
              answered (WriteFeedData (connection acc) fullPath
                          (getFileMetadataRawBytes m)
                          (privateKey (podWallet info))) fref ]
    /\ podName m = pod
    /\ filePath m = path (extractPathInfo fullPath)
    /\ fileName m = filename (extractPathInfo fullPath)
    /\ podAddress m = extPodAddress info
    /\ metaContentType m = contentType (mergeOptions options)
    /\ compression m = ""
    /\ (options = None -> metaBlockSize m = 1000000 /\ metaContentType m = "").
Proof.
  cbv zeta. intros Ho.
  destruct (uploadData_ok _ handle _ _ _ _ _ _ _ _ Ho)
    as (info & now & refs & fref & Ht & Hm & _).
  exists info, fref.
  eexists ([_; _] ++ blockEvents (connection acc) (payloadBytes data)
             (blockSize (mergeOptions options)) 0 refs ++ [_]).
  assert (Hfp : filePath m = path (extractPathInfo fullPath)) by (rewrite Hm; reflexivity).
  assert (Hfn : fileName m = filename (extractPathInfo fullPath)) by (rewrite Hm; reflexivity).
  split; [rewrite Ht; left; reflexivity|].
  split.
  - rewrite Ht, (uploadEvents_closing _ _ _ _ _ _ _ _ _ _ Hm), Hfp, Hfn.
    unfold closingEvents. rewrite <- !app_assoc. reflexivity.
  - split; [rewrite Hm; reflexivity|]. split; [exact Hfp|]. split; [exact Hfn|].
    split; [rewrite Hm; reflexivity|]. split; [rewrite Hm; reflexivity|].
    split; [rewrite Hm; reflexivity|].
    intros ->. rewrite Hm. split; reflexivity.
Qed.

End Boundaries.

Lemma uploadData_single_block_witness :
  0 < byteLength Mem.bytes5 <= blockSize (mergeOptions None)
  /\ (1 <= 1)%nat
  /\ failed (Mem.exec Mem.uploadDefault) = false
  /\ exists m,
       outcome (Mem.exec Mem.uploadDefault) = Ok m
       /\ Mem.stored (final (Mem.exec Mem.uploadDefault))
          = [Mem.bytes5; list_byte_of_string "[block-0=ref0]"].
Proof.
  assert (H1 : 0 < byteLength Mem.bytes5 <= blockSize (mergeOptions None))
    by (vm_compute; split; [reflexivity | discriminate]).
  assert (H2 : (1 <= 1)%nat) by lia.
  assert (H3 : failed (Mem.exec Mem.uploadDefault) = false) by reflexivity.
  destruct (uploadData_single_block Mem.World Mem.handle 1 true "pod" "/a.txt"
              (PBytes Mem.bytes5) None Mem.w0 H1 H2 H3) as (m & ref & Ho & _).
  split; [exact H1|]. split; [exact H2|]. split; [exact H3|].
  exists m. split; [exact Ho | reflexivity].
Defined.

Lemma uploadData_exact_multiple_witness :
  0 < blockSize (mergeOptions (Mem.opts 2))
  /\ byteLength Mem.bytes4 = 2 * blockSize (mergeOptions (Mem.opts 2))
  /\ (Z.to_nat 2 <= 2)%nat
  /\ failed (Mem.exec Mem.upload4) = false
  /\ exists m,
       outcome (Mem.exec Mem.upload4) = Ok m
       /\ Mem.stored (final (Mem.exec Mem.upload4))
          = [[x61; x62]; [x63; x64]; list_byte_of_string "[block-0=ref0;block-1=ref1]"]%byte.
Proof.
  assert (H1 : 0 < blockSize (mergeOptions (Mem.opts 2))) by (simpl; lia).
  assert (H2 : byteLength Mem.bytes4 = 2 * blockSize (mergeOptions (Mem.opts 2)))
    by reflexivity.
  assert (H3 : (Z.to_nat 2 <= 2)%nat) by (simpl; lia).
  assert (H4 : failed (Mem.exec Mem.upload4) = false) by reflexivity.
  destruct (uploadData_exact_multiple Mem.World Mem.handle 2 true "pod" "/b.txt"
              (PBytes Mem.bytes4) (Mem.opts 2) Mem.w0 2 H1 H2 H3 H4)
    as (m & refs & Ho & _).
  split; [exact H1|]. split; [exact H2|]. split; [exact H3|]. split; [exact H4|].
  exists m. split; [exact Ho | reflexivity].
Defined.

Lemma uploadData_location_witness :
  exists m,
    outcome (Mem.exec Mem.uploadDefault) = Ok m
    /\ podName m = "pod"
    /\ fileName m = "/a.txt"
    /\ metaBlockSize m = 1000000
    /\ Mem.entries (final (Mem.exec Mem.uploadDefault)) = [(filePath m, fileName m)].
Proof.
  eexists. split; [reflexivity|].
  destruct (uploadData_location Mem.World Mem.handle 1 true "pod" "/a.txt"
              (PBytes Mem.bytes5) None Mem.w0 _ eq_refl)
    as (info & fref & pre & _ & _ & Hp & _ & Hn & _ & _ & _ & Hd).
  split; [exact Hp|]. split; [exact Hn|]. split; [exact (proj1 (Hd eq_refl)) | reflexivity].
Defined.

(** ** Block size zero *)
Section ZeroBlockSize.

Context `{Imports}.
Variable World : Type.
Variable handle : forall op : Op, World -> (string + res op) * World.

Local Abbreviation exec := (run handle).

Lemma blockContents_zero (p : Bytes) (k : nat) :
  forall i, blockContents p 0 i k = repeat [] k.
Proof.
  induction k as [|k IH]; intros i; simpl; [reflexivity|].
  rewrite IH. f_equal. unfold blockAt, slice.
  rewrite !Z.mul_0_r, Z.sub_diag. reflexivity.
Qed.

(** A run that is still in the loop when the fuel ends has made the pod
    lookup, read the clock and uploaded one slice per unit of fuel. *)
Lemma uploadData_pending_trace (fuel : nat) (acc : AccountData) (pod fullPath : string)
    (data : Payload) (options : option DataUploadOptions) (w : World) :
  let r := exec (uploadData fuel acc pod fullPath data options) w in
  outcome r = Pending ->
  exists (info : ExtendedPodInfo) (now : Z) (refs : list Reference),
    trace r = [ answered (GetExtendedPodsListByAccountData acc pod) info;
                answered GetUnixTimestamp now ]
              ++ blockEvents (connection acc) (payloadBytes data)
                   (blockSize (mergeOptions options)) 0 refs
    /\ List.length refs = fuel.
Proof.
  cbv zeta. unfold uploadData. cbv zeta.
  unfold assertAccount, assertPodName, assertFullPathWithName.
  rewrite run_assert. destruct (isAccount acc); [|discriminate].
  rewrite run_assert. destruct (isPodName pod); [|discriminate].
  rewrite run_assert. destruct (isFullPathWithName fullPath); [|discriminate].
  rewrite run_assert, run_await.
  destruct (handle _ w) as [[msg|info] w1]; [discriminate|].
  rewrite run_await.
  destruct (handle _ w1) as [[msg|now] w2]; [discriminate|].
  rewrite run_bind. unfold andThen.
  destruct (uploadBlocks_run _ handle (connection acc) (payloadBytes data)
              (blockSize (mergeOptions options))
              (Math_ceil_div (byteLength (payloadBytes data))
                 (blockSize (mergeOptions options)))
              fuel 0 [] w2) as (refs & Hloop).
  cbv zeta in Hloop.
  destruct (outcome (exec (uploadBlocks _ _ _ _ _ _ _) w2)) as [bl|e'|].
  - cbv beta zeta. rewrite run_await.
    destruct (handle _ _) as [[msg|mref] w3]; [discriminate|].
    rewrite run_await.
    destruct (handle _ w3) as [[msg|u] w4]; [discriminate|].
    rewrite run_await.
    destruct (handle _ w4) as [[msg|fref] w5]; discriminate.
  - discriminate.
  - intros _. destruct Hloop as (Ht & Hlen & _).
    exists info, now, refs. split; [|exact Hlen].
    cbn [trace logged]. now rewrite Ht.
Qed.

(** With block size zero and a payload that is not empty, uploadData never
    leaves its loop: unless a call is rejected, a run with [fuel] turns of
    the loop has uploaded [fuel] empty blocks, and has stored no manifest,
    registered no entry and published nothing. *)
Theorem uploadData_zero_blockSize_loops (fuel : nat) (acc : AccountData)
    (pod fullPath : string) (data : Payload) (options : option DataUploadOptions)
    (w : World) :
  let r := exec (uploadData fuel acc pod fullPath data options) w in
  blockSize (mergeOptions options) = 0 ->
  payloadBytes data <> [] ->
  failed r = false ->
  outcome r = Pending
  /\ storeWrites (trace r) = repeat [] fuel
  /\ registered (trace r) = false
  /\ published (trace r) = false.
Proof.
  cbv zeta. intros Hbs Hp Hfail.
  assert (Ho : outcome (exec (uploadData fuel acc pod fullPath data options) w) = Pending).
  { unfold failed in Hfail.
    destruct (outcome (exec (uploadData fuel acc pod fullPath data options) w))
      as [m|e|] eqn:Ho; [|discriminate|reflexivity].
    exfalso.
    destruct (uploadData_ok _ handle _ _ _ _ _ _ _ _ Ho)
      as (_ & _ & refs & _ & _ & _ & Hrem & _).
    rewrite Hbs in Hrem. unfold Math_ceil_div in Hrem. simpl in Hrem.
    destruct (byteLength (payloadBytes data) =? 0) eqn:E; [|discriminate].
    apply Z.eqb_eq in E. unfold byteLength in E.
    destruct (payloadBytes data); [contradiction | discriminate]. }
  split; [exact Ho|].
  destruct (uploadData_pending_trace fuel acc pod fullPath data options w Ho)
    as (info & now & refs & Ht & Hlen).
  rewrite Ht, Hbs.
  destruct (blockEvents_effects (connection acc) (payloadBytes data) 0 refs 0) as (Hr & Hpb).
  split; [|split].
  - cbn [app storeWrites evOp answered].
    rewrite <- (app_nil_r (blockEvents _ _ _ _ _)), storeWrites_blocks.
    cbn [storeWrites]. now rewrite app_nil_r, blockContents_zero, Hlen.
  - cbn [app]. rewrite !registered_cons, Hr. reflexivity.
  - cbn [app]. rewrite !published_cons, Hpb. reflexivity.
Qed.

End ZeroBlockSize.

Lemma uploadData_zero_blockSize_loops_witness :
  blockSize (mergeOptions (Mem.opts 0)) = 0
  /\ payloadBytes (H := Mem.imports) (PBytes Mem.bytes5) <> []
  /\ failed (Mem.exec (Mem.uploadZero 7)) = false
  /\ outcome (Mem.exec (Mem.uploadZero 7)) = Pending
  /\ Mem.stored (final (Mem.exec (Mem.uploadZero 7))) = repeat [] 7.
Proof.
  assert (H1 : blockSize (mergeOptions (Mem.opts 0)) = 0) by reflexivity.
  assert (H2 : payloadBytes (H := Mem.imports) (PBytes Mem.bytes5) <> []) by discriminate.
  assert (H3 : failed (Mem.exec (Mem.uploadZero 7)) = false) by reflexivity.
  destruct (uploadData_zero_blockSize_loops Mem.World Mem.handle 7 true "pod" "/a.txt"
              (PBytes Mem.bytes5) (Mem.opts 0) Mem.w0 H1 H2 H3) as (Ho & _).
  split; [exact H1|]. split; [exact H2|]. split; [exact H3|].
  split; [exact Ho | reflexivity].
Defined.

(** ** Reading *)
Section Reads.

Context `{Imports}.
Variable World : Type.
Variable handle : forall op : Op, World -> (string + res op) * World.

Local Abbreviation exec := (run handle).

(** A part of the world that the calls of a run leave alone is the same
    after the run. *)
Lemma run_frame (A T : Type) (view : World -> T) (P : Op -> bool) (p : Prog A) :
  (forall op w0, P op = true -> view (snd (handle op w0)) = view w0) ->
  forall w,
    forallb (fun ev => P (evOp ev)) (trace (exec p w)) = true ->
    view (final (exec p w)) = view w.
Proof.
  intros Hview. induction p as [a|e| |op k IH]; intros w; simpl; try reflexivity.
  pose proof (Hview op w) as Hop.
  destruct (handle op w) as [[msg|x] w']; simpl.
  - rewrite andb_true_r. intros Hp. now apply Hop.
  - intros Hall. apply andb_prop in Hall. destruct Hall as (Hp & Hrest).
    rewrite (IH x w' Hrest). now apply Hop.
Qed.

Lemma callsMade_none (f : Op -> bool) (tr : list Event) :
  callsMade f tr = O -> forallb (fun ev => negb (f (evOp ev))) tr = true.
Proof.
  unfold callsMade. induction tr as [|ev tr IH]; simpl; [reflexivity|].
  destruct (f (evOp ev)); simpl; [discriminate | exact IH].
Qed.

Lemma downloadData_run (acc : AccountData) (pod fullPath : string) (w : World) :
  let r := exec (downloadData acc pod fullPath) w in
  let conn := connection acc in
  (exists a, r = thrown _ a w)
  \/ (exists msg, outcome r = Err (Rejected msg)
                  /\ (List.length (trace r) <= 2)%nat
                  /\ callsMade isWrite (trace r) = O)
  \/ exists (info : ExtendedPodInfo) (d : Data),
       outcome r = Ok d
       /\ trace r = [ answered (GetExtendedPodsListByAccountData acc pod) info;
                      answered (DownloadData (bee conn) fullPath (extPodAddress info)
                                  (downloadOptions conn)) d ].
Proof.
  cbv zeta. unfold downloadData, assertAccount, assertPodName, assertFullPathWithName.
  rewrite run_assert. destruct (isAccount acc); [|left; eexists; reflexivity].
  rewrite run_assert. destruct (isPodName pod); [|left; eexists; reflexivity].
  rewrite run_assert. destruct (isFullPathWithName fullPath); [|left; eexists; reflexivity].
  rewrite run_assert, run_await. right.
  destruct (handle _ w) as [[msg|info] w1]; [left; exists msg; simpl; auto|].
  unfold await. cbn [run].
  destruct (handle _ w1) as [[msg|d] w2]; [left; exists msg; simpl; auto|].
  right. exists info, d. split; reflexivity.
Qed.

Lemma downloadShared_run (acc : AccountData) (r : Reference) (w : World) :
  let rf := exec (downloadShared acc r) w in
  let conn := connection acc in
  (exists a, rf = thrown _ a w)
  \/ (exists msg, outcome rf = Err (Rejected msg)
                  /\ callsMade isWrite (trace rf) = O)
  \/ exists (info : FileShareInfo) (d : Data),
       outcome rf = Ok (wrapBytesWithHelpers d)
       /\ trace rf
          = [ answered (GetSharedFileInfo (bee conn) r) info;
              answered (DownloadData (bee conn)
                          (combine (file_path (meta info)) (file_name (meta info)))
                          (prepareEthAddress (source_address info))
                          (downloadOptions conn)) d ].
Proof.
  cbv zeta. unfold downloadShared. rewrite run_bind, getSharedInfo_run. unfold andThen.
  destruct (isEncryptedReference r); [|left; eexists; reflexivity]. right.
  destruct (handle _ w) as [[msg|info] w1]; [left; exists msg; simpl; auto|].
  cbn [outcome final trace]. rewrite run_await.
  destruct (handle _ w1) as [[msg|d] w2]; [left; exists msg; simpl; auto|].
  right. exists info, d. split; reflexivity.
Qed.

Lemma downloadFromSharedPod_run (acc : AccountData) (r : Reference) (fullPath : string)
    (w : World) :
  let rp := exec (downloadFromSharedPod acc r fullPath) w in
  let conn := connection acc in
  (exists a, rp = thrown _ a w)
  \/ (exists msg, outcome rp = Err (Rejected msg)
                  /\ callsMade isWrite (trace rp) = O)
  \/ exists (info : PodShareInfo) (d : Data),
       outcome rp = Ok (wrapBytesWithHelpers d)
       /\ trace rp
          = [ answered (GetSharedPodInfo (bee conn) r) info;
              answered (DownloadData (bee conn) fullPath
                          (prepareEthAddress (pod_address info))
                          (downloadOptions conn)) d ].
Proof.
  cbv zeta. unfold downloadFromSharedPod, assertEncryptedReference.
  rewrite run_assert.
  destruct (isEncryptedReference r); [|left; eexists; reflexivity]. right.
  rewrite run_await.
  destruct (handle _ w) as [[msg|info] w1]; [left; exists msg; simpl; auto|].
  rewrite run_await.
  destruct (handle _ w1) as [[msg|d] w2]; [left; exists msg; simpl; auto|].
  right. exists info, d. split; reflexivity.
Qed.

(** downloadData, getSharedInfo, downloadShared and downloadFromSharedPod
    write nothing in any execution: no store write, no feed publish, no
    directory entry added or removed.  Whatever part of the world the
    reading calls leave alone is the same afterwards. *)
Theorem reads_write_nothing (acc : AccountData) (pod fullPath : string) (r : Reference)
    (w : World) :
  let rd := exec (downloadData acc pod fullPath) w in
  let ri := exec (getSharedInfo acc r) w in
  let rf := exec (downloadShared acc r) w in
  let rp := exec (downloadFromSharedPod acc r fullPath) w in
  (callsMade isWrite (trace rd) = O /\ callsMade isWrite (trace ri) = O
   /\ callsMade isWrite (trace rf) = O /\ callsMade isWrite (trace rp) = O)
  /\ (forall (T : Type) (view : World -> T),
        (forall op w0, isWrite op = false -> view (snd (handle op w0)) = view w0) ->
        view (final rd) = view w /\ view (final ri) = view w
        /\ view (final rf) = view w /\ view (final rp) = view w).
Proof.
  cbv zeta.
  assert (Hd : callsMade isWrite (trace (exec (downloadData acc pod fullPath) w)) = O).
  { destruct (downloadData_run acc pod fullPath w)
      as [(a & ->)|[(msg & _ & _ & Hc)|(info & d & _ & ->)]]; [reflexivity|exact Hc|reflexivity]. }
  assert (Hi : callsMade isWrite (trace (exec (getSharedInfo acc r) w)) = O).
  { rewrite getSharedInfo_run. destruct (isEncryptedReference r); [|reflexivity].
    now destruct (handle _ w) as [[msg|info] w1]. }
  assert (Hf : callsMade isWrite (trace (exec (downloadShared acc r) w)) = O).
  { destruct (downloadShared_run acc r w)
      as [(a & ->)|[(msg & _ & Hc)|(info & d & _ & ->)]]; [reflexivity|exact Hc|reflexivity]. }
  assert (Hp : callsMade isWrite (trace (exec (downloadFromSharedPod acc r fullPath) w)) = O).
  { destruct (downloadFromSharedPod_run acc r fullPath w)
      as [(a & ->)|[(msg & _ & Hc)|(info & d & _ & ->)]]; [reflexivity|exact Hc|reflexivity]. }
  split; [auto|].
  intros T view Hview.
  assert (Hview' : forall op w0, negb (isWrite op) = true ->
                                 view (snd (handle op w0)) = view w0).
  { intros op w0 Hop. apply Hview. now destruct (isWrite op). }
  repeat split; apply (run_frame _ _ view (fun op => negb (isWrite op)) _ Hview');
    now apply callsMade_none.
Qed.

(** A downloadData that does not fail made two calls: the pod lookup for
    the pod name it was given, and the download of the full path from the
    address that lookup answered; it returns what the download answered. *)
Theorem downloadData_reads_pod_address (acc : AccountData) (pod fullPath : string)
    (w : World) :
  let r := exec (downloadData acc pod fullPath) w in
  let conn := connection acc in
  failed r = false ->
  exists (info : ExtendedPodInfo) (d : Data),
    outcome r = Ok d
    /\ trace r = [ answered (GetExtendedPodsListByAccountData acc pod) info;
                   answered (DownloadData (bee conn) fullPath (extPodAddress info)
                               (downloadOptions conn)) d ].
Proof.
  cbv zeta. intros Hf.
  destruct (downloadData_run acc pod fullPath w)
    as [(a & E)|[(msg & E & _)|Hok]]; [| |exact Hok];
    unfold failed in Hf; rewrite E in Hf; discriminate Hf.
Qed.

(** downloadShared reads the path made of the shared record's file_path
    and file_name at the address of the sharer given in the share
    information, and downloadFromSharedPod reads the given path at the
    address of the shared pod: a run that does not fail made exactly these
    two calls and returns the wrapped data.  Neither depends on the
    account beyond its connection. *)
Theorem shared_downloads_read_from_sharer (acc : AccountData) (r : Reference)
    (fullPath : string) (w : World) :
  let rf := exec (downloadShared acc r) w in
  let rp := exec (downloadFromSharedPod acc r fullPath) w in
  let conn := connection acc in
  (failed rf = false ->
   exists (info : FileShareInfo) (d : Data),
     outcome rf = Ok (wrapBytesWithHelpers d)
     /\ trace rf
        = [ answered (GetSharedFileInfo (bee conn) r) info;
            answered (DownloadData (bee conn)
                        (combine (file_path (meta info)) (file_name (meta info)))
                        (prepareEthAddress (source_address info))
                        (downloadOptions conn)) d ])
  /\ (failed rp = false ->
      exists (info : PodShareInfo) (d : Data),
        outcome rp = Ok (wrapBytesWithHelpers d)
        /\ trace rp
           = [ answered (GetSharedPodInfo (bee conn) r) info;
               answered (DownloadData (bee conn) fullPath
                           (prepareEthAddress (pod_address info))
                           (downloadOptions conn)) d ])
  /\ (forall acc', connection acc' = conn ->
        exec (downloadShared acc' r) w = rf
        /\ exec (downloadFromSharedPod acc' r fullPath) w = rp).
Proof.
  cbv zeta. split; [|split].
  - intros Hf.
    destruct (downloadShared_run acc r w) as [(a & E)|[(msg & E & _)|Hok]]; [| |exact Hok];
      unfold failed in Hf; rewrite E in Hf; discriminate Hf.
  - intros Hf.
    destruct (downloadFromSharedPod_run acc r fullPath w)
      as [(a & E)|[(msg & E & _)|Hok]]; [| |exact Hok];
      unfold failed in Hf; rewrite E in Hf; discriminate Hf.
  - intros acc' Hc. unfold downloadShared, downloadFromSharedPod, getSharedInfo.
    rewrite Hc. split; reflexivity.
Qed.

End Reads.

Lemma reads_write_nothing_witness :
  Mem.stored (final (Mem.exec Mem.download5)) = Mem.stored Mem.w0
  /\ Mem.entries (final (Mem.exec Mem.download5)) = Mem.entries Mem.w0
  /\ Mem.feeds (final (Mem.exec Mem.sharedFile)) = Mem.feeds Mem.w0
  /\ callsMade isWrite (trace (Mem.exec Mem.sharedPodFile)) = O.
Proof.
  destruct (reads_write_nothing Mem.World Mem.handle true "pod" "/docs/a.txt" Mem.encRef Mem.w0)
    as (_ & Hframe).
  destruct (reads_write_nothing Mem.World Mem.handle false "pod" "/docs/a.txt" Mem.encRef Mem.w0)
    as ((_ & _ & _ & Hp) & Hframe').
  assert (Hview : forall (op : @Op Mem.imports) (w0 : Mem.World),
             isWrite op = false ->
             (fun x => (Mem.stored x, Mem.entries x, Mem.feeds x)) (snd (Mem.handle op w0))
             = (fun x => (Mem.stored x, Mem.entries x, Mem.feeds x)) w0).
  { intros op w0. destruct op; simpl; try discriminate; intros _; try reflexivity.
    - now destruct (Mem.lookup pod (Mem.pods w0)).
    - now destruct (Mem.lookup r (Mem.shared w0)).
    - now destruct (Mem.lookup fullPath (Mem.feeds w0)). }
  destruct (Hframe _ _ Hview) as (Hd & _).
  destruct (Hframe' _ _ Hview) as (_ & _ & Hf & _).
  split; [exact (f_equal (fun x => fst (fst x)) Hd)|].
  split; [exact (f_equal (fun x => snd (fst x)) Hd)|].
  split; [exact (f_equal snd Hf) | exact Hp].
Defined.

Lemma downloadData_reads_pod_address_witness :
  failed (Mem.exec Mem.download5) = false
  /\ outcome (Mem.exec Mem.download5) = Ok Mem.bytes5
  /\ List.length (trace (Mem.exec Mem.download5)) = 2%nat.
Proof.
  assert (H1 : failed (Mem.exec Mem.download5) = false) by reflexivity.
  destruct (downloadData_reads_pod_address Mem.World Mem.handle true "pod" "/docs/a.txt"
              Mem.w0 H1) as (info & d & Ho & Ht).
  split; [exact H1|]. split; [reflexivity|].
  exact (f_equal (@List.length _) Ht).
Defined.

Lemma shared_downloads_read_from_sharer_witness :
  failed (Mem.exec Mem.sharedFile) = false
  /\ failed (Mem.exec Mem.sharedPodFile) = false
  /\ List.length (trace (Mem.exec Mem.sharedFile)) = 2%nat
  /\ List.length (trace (Mem.exec Mem.sharedPodFile)) = 2%nat
  /\ Mem.exec (@downloadShared Mem.imports true Mem.encRef) = Mem.exec Mem.sharedFile.
Proof.
  assert (H1 : failed (Mem.exec Mem.sharedFile) = false) by reflexivity.
  assert (H2 : failed (Mem.exec Mem.sharedPodFile) = false) by reflexivity.
  destruct (shared_downloads_read_from_sharer Mem.World Mem.handle false Mem.encRef
              "/docs/a.txt" Mem.w0) as (Hf & Hp & Hc).
  destruct (Hf H1) as (i1 & d1 & _ & Ht1).
  destruct (Hp H2) as (i2 & d2 & _ & Ht2).
  split; [exact H1|]. split; [exact H2|].
  split; [exact (f_equal (@List.length _) Ht1)|].
  split; [exact (f_equal (@List.length _) Ht2)|].
  exact (proj1 (Hc true eq_refl)).
Defined.

(** ** share *)
Section Share.

Context `{Imports}.
Variable World : Type.
Variable handle : forall op : Op, World -> (string + res op) * World.

Local Abbreviation exec := (run handle).

Lemma share_run (acc : AccountData) (pod fullPath : string) (w : World) :
  let r := exec (share acc pod fullPath) w in
  let conn := connection acc in
  (exists a, a <> AssertRawFileMetadata /\ r = thrown _ a w)
  \/ (exists msg, outcome r = Err (Rejected msg)
                  /\ callsMade isFeedPublish (trace r) = O
                  /\ callsMade isEntryAdd (trace r) = O
                  /\ callsMade isEntryRemoval (trace r) = O
                  /\ (callsMade isStoreWrite (trace r) <= 1)%nat)
  \/ (exists (info : ExtendedPodInfo) (raw : RawMetadataWithEpoch),
        isRawFileMetadata (metadata raw) = None
        /\ outcome r = Err (AssertionFailed AssertRawFileMetadata)
        /\ trace r = [ answered (GetExtendedPodsListByAccountData acc pod) info;
                       answered (GetRawMetadata (bee conn) fullPath (extPodAddress info)) raw ])
  \/ exists (info : ExtendedPodInfo) (raw : RawMetadataWithEpoch) (m : RawFileMetadata)
            (ref : Reference),
       isRawFileMetadata (metadata raw) = Some m
       /\ outcome r = Ok ref
       /\ trace r
          = [ answered (GetExtendedPodsListByAccountData acc pod) info;
              answered (GetRawMetadata (bee conn) fullPath (extPodAddress info)) raw;
              answered (UploadBytes conn
                          (stringToBytes
                             (JSON_stringify (createFileShareInfo m (extPodAddress info)))))
                {| resReference := ref |} ].
Proof.
  cbv zeta. unfold share, assertAccount, assertPodName, assertFullPathWithName.
  cbv zeta.
  rewrite run_assert. destruct (isAccount acc); [|left; eexists; split; [|reflexivity]; discriminate].
  rewrite run_assert. destruct (isFullPathWithName fullPath); [|left; eexists; split; [|reflexivity]; discriminate].
  rewrite run_assert. destruct (isPodName pod); [|left; eexists; split; [|reflexivity]; discriminate].
  rewrite run_await. right.
  destruct (handle _ w) as [[msg|info] w1];
    [left; exists msg; unfold callsMade; simpl; repeat split; lia|].
  cbv beta. rewrite run_await.
  destruct (handle _ w1) as [[msg|raw] w2];
    [left; exists msg; unfold callsMade; simpl; repeat split; lia|].
  unfold assertRawFileMetadata.
  destruct (isRawFileMetadata (metadata raw)) as [m|] eqn:Hraw.
  - cbv beta. cbn [bind]. rewrite run_await.
    destruct (handle _ w2) as [[msg|[ref]] w3];
      [left; exists msg; unfold callsMade; simpl; repeat split; lia|].
    right. right. exists info, raw, m, ref. auto.
  - right. left. exists info, raw. auto.
Qed.

(** share publishes no feed and changes no directory entry in any
    execution, and writes to the store at most once.  When the metadata
    found at the path is not that of a file it throws after the pod lookup
    and the metadata read, having stored nothing.  A run that does not
    fail stored one object, the serialised share information built from
    the file's raw metadata and the address the pod lookup answered, and
    returns the reference the store answered. *)
Theorem share_stores_share_info (acc : AccountData) (pod fullPath : string) (w : World) :
  let r := exec (share acc pod fullPath) w in
  let conn := connection acc in
  (callsMade isFeedPublish (trace r) = O
   /\ callsMade isEntryAdd (trace r) = O
   /\ callsMade isEntryRemoval (trace r) = O
   /\ (callsMade isStoreWrite (trace r) <= 1)%nat)
  /\ (outcome r = Err (AssertionFailed AssertRawFileMetadata) ->
      storeWrites (trace r) = [] /\ List.length (trace r) = 2%nat)
  /\ (failed r = false ->
      exists (info : ExtendedPodInfo) (raw : RawMetadataWithEpoch) (m : RawFileMetadata)
             (ref : Reference),
        isRawFileMetadata (metadata raw) = Some m
        /\ outcome r = Ok ref
        /\ trace r
           = [ answered (GetExtendedPodsListByAccountData acc pod) info;
               answered (GetRawMetadata (bee conn) fullPath (extPodAddress info)) raw;
               answered (UploadBytes conn
                           (stringToBytes
                              (JSON_stringify (createFileShareInfo m (extPodAddress info)))))
                 {| resReference := ref |} ]).
Proof.
  cbv zeta.
  destruct (share_run acc pod fullPath w)
    as [(a & Ha & E)|[(msg & E & H1 & H2 & H3 & H4)
                |[(info & raw & Hraw & E & Ht)|(info & raw & m & ref & Hraw & E & Ht)]]].
  - rewrite E. split; [unfold callsMade; simpl; repeat split; lia|]. split.
    + simpl. intros [= ->]. contradiction.
    + discriminate.
  - split; [repeat split; assumption|]. unfold failed. rewrite E. split; discriminate.
  - rewrite Ht. unfold failed. rewrite E.
    split; [unfold callsMade; simpl; repeat split; lia|]. split; [auto | discriminate].
  - rewrite Ht. unfold failed. rewrite E.
    split; [unfold callsMade; simpl; repeat split; lia|]. split; [discriminate|].
    intros _. exists info, raw, m, ref. auto.
Qed.

End Share.

Lemma share_stores_share_info_witness :
  failed (Mem.execLimited 9 Mem.share5) = false
  /\ outcome (Mem.execLimited 9 Mem.share5) = Ok "ref0"
  /\ Mem.stored (final (Mem.execLimited 9 Mem.share5)) = [list_byte_of_string "a.txt"]
  /\ List.length (trace (Mem.execLimited 9 Mem.share5)) = 3%nat.
Proof.
  assert (H1 : failed (Mem.execLimited 9 Mem.share5) = false) by reflexivity.
  destruct (share_stores_share_info Mem.World (Mem.handleLimited 9) true "pod" "/docs/a.txt"
              Mem.w0) as (_ & _ & Hok).
  destruct (Hok H1) as (info & raw & m & ref & _ & _ & Ht).
  split; [exact H1|]. split; [reflexivity|]. split; [reflexivity|].
  exact (f_equal (@List.length _) Ht).
Defined.

(** ** What a failed saveShared leaves behind; upload and delete *)
Section SaveAndDelete.

Context `{Imports}.
Variable World : Type.
Variable handle : forall op : Op, World -> (string + res op) * World.

Local Abbreviation exec := (run handle).

Lemma saveShared_failed (acc : AccountData) (pod parentPath : string) (r : Reference)
    (options : option FileReceiveOptions) (w : World) :
  let rs := exec (saveShared acc pod parentPath r options) w in
  failed rs = true ->
  (exists a, rs = thrown _ a w)
  \/ exists pre op msg,
       trace rs = pre ++ [rejected op msg]
       /\ outcome rs = Err (Rejected msg)
       /\ published pre = false
       /\ registered pre = isFeedPublish op.
Proof.
  cbv zeta. unfold saveShared, assertPodName. rewrite run_assert.
  destruct (isPodName pod); [|intros _; left; eexists; reflexivity].
  rewrite run_bind, getSharedInfo_run. unfold andThen.
  destruct (isEncryptedReference r); [|intros _; left; eexists; reflexivity].
  intros Hf. right. revert Hf.
  destruct (handle _ w) as [[msg|sharedInfo] w1]; cbn [outcome final trace].
  { intros _. exists [], (GetSharedFileInfo (bee (connection acc)) r), msg. auto. }
  cbv zeta. rewrite run_await.
  destruct (handle _ w1) as [[msg|info] w2].
  { intros _. eexists [_], _, msg. repeat split. }
  cbv beta. rewrite run_await.
  destruct (handle _ w2) as [[msg|u] w3].
  { intros _. eexists [_; _], _, msg. repeat split. }
  rewrite run_await.
  destruct (handle _ w3) as [[msg|fref] w4]; [|discriminate].
  intros _. eexists [_; _; _], _, msg. destruct u. repeat split.
Qed.

(** A failed saveShared has published nothing, and it has registered the
    directory entry exactly when the call that was rejected is the feed
    publish: the share is then listed in the directory of the importing
    pod without published metadata.  When the pod lookup is rejected
    nothing has been registered. *)
Theorem saveShared_partial_effects (acc : AccountData) (pod parentPath : string)
    (r : Reference) (options : option FileReceiveOptions) (w : World) :
  let rs := exec (saveShared acc pod parentPath r options) w in
  failed rs = true ->
  published (trace rs) = false
  /\ (registered (trace rs) = true ->
      exists pre op msg,
        trace rs = pre ++ [rejected op msg] /\ isFeedPublish op = true)
  /\ (forall pre op msg,
        trace rs = pre ++ [rejected op msg] -> isFeedPublish op = true ->
        registered (trace rs) = true)
  /\ (forall pre op msg,
        trace rs = pre ++ [rejected op msg] -> isAccountLookup op = true ->
        registered (trace rs) = false).
Proof.
  cbv zeta. intros Hf.
  destruct (saveShared_failed acc pod parentPath r options w Hf)
    as [(a & ->)|(pre & op & msg & Ht & _ & Hp & Hr)].
  - split; [reflexivity|]. split; [discriminate|].
    split; intros pre op msg E; destruct pre; discriminate E.
  - assert (Hreg : registered (trace (exec (saveShared acc pod parentPath r options) w))
                   = isFeedPublish op).
    { rewrite Ht, registered_app, Hr. cbn.
      now rewrite andb_false_r, !orb_false_r. }
    split; [rewrite Ht, published_app, Hp; cbn; now rewrite andb_false_r|].
    split; [|split].
    + intros Hreg'. exists pre, op, msg. split; [exact Ht|]. congruence.
    + intros pre' op' msg' E Hop. rewrite Ht in E.
      apply app_inj_tail in E. destruct E as (_ & E).
      apply (f_equal (fun ev => isFeedPublish (evOp ev))) in E. cbn in E. congruence.
    + intros pre' op' msg' E Hop. rewrite Ht in E.
      apply app_inj_tail in E. destruct E as (_ & E).
      assert (Hs : isAccountLookup op = true).
      { apply (f_equal (fun ev => isAccountLookup (evOp ev))) in E. cbn in E. congruence. }
      rewrite Hreg. destruct op; try discriminate Hs; reflexivity.
Qed.

Lemma delete_ok (acc : AccountData) (pod fullPath : string) (w : World) :
  let r := exec (delete acc pod fullPath) w in
  failed r = false ->
  exists info : ExtendedPodInfo,
    trace r = [ answered (GetExtendedPodsListByAccountData acc pod) info;
                answered (RemoveEntryFromDirectory (connection acc) (podWallet info)
                            (path (extractPathInfo fullPath))
                            (filename (extractPathInfo fullPath)) true) tt ].
Proof.
  cbv zeta. unfold delete, assertAccount, assertFullPathWithName, assertPodName, failed.
  cbv zeta.
  rewrite run_assert. destruct (isAccount acc); [|discriminate].
  rewrite run_assert. destruct (isFullPathWithName fullPath); [|discriminate].
  rewrite run_assert. destruct (isPodName pod); [|discriminate].
  rewrite run_await.
  destruct (handle _ w) as [[msg|info] w1]; [discriminate|].
  unfold await. cbn [run].
  destruct (handle _ w1) as [[msg|u] w2]; [discriminate|].
  intros _. exists info. destruct u. reflexivity.
Qed.

(** delete undoes the registration of uploadData: for the same account,
    pod name and full path, the entry a delete removes has the directory
    and the name of the entry a completed upload registered, which are
    the filePath and fileName of the record the upload returned; both are
    entries of files. *)
Theorem delete_removes_uploaded_entry (fuel : nat) (acc : AccountData)
    (pod fullPath : string) (data : Payload) (options : option DataUploadOptions)
    (w w' : World) (m : FileMetadata) :
  let ru := exec (uploadData fuel acc pod fullPath data options) w in
  let rd := exec (delete acc pod fullPath) w' in
  outcome ru = Ok m ->
  failed rd = false ->
  exists (info info' : ExtendedPodInfo),
    In (answered (AddEntryToDirectory (connection acc) (podWallet info)
                    (filePath m) (fileName m) true) tt) (trace ru)
    /\ trace rd
       = [ answered (GetExtendedPodsListByAccountData acc pod) info';
           answered (RemoveEntryFromDirectory (connection acc) (podWallet info')
                       (filePath m) (fileName m) true) tt ].
Proof.
  cbv zeta. intros Ho Hf.
  destruct (uploadData_ok _ handle _ _ _ _ _ _ _ _ Ho)
    as (info & now & refs & fref & Ht & Hm & _).
  destruct (delete_ok acc pod fullPath w' Hf) as (info' & Hd).
  assert (Hfp : filePath m = path (extractPathInfo fullPath)) by (rewrite Hm; reflexivity).
  assert (Hfn : fileName m = filename (extractPathInfo fullPath)) by (rewrite Hm; reflexivity).
  exists info, info'. rewrite Hfp, Hfn. split; [|exact Hd].
  rewrite Ht. unfold uploadEvents, closingEvents.
  apply in_or_app. right. apply in_or_app. right. right. left. reflexivity.
Qed.

End SaveAndDelete.

Lemma saveShared_partial_effects_witness :
  failed (Mem.execLimited 9 Mem.saveLocked) = true
  /\ published (trace (Mem.execLimited 9 Mem.saveLocked)) = false
  /\ registered (trace (Mem.execLimited 9 Mem.saveLocked)) = true
  /\ Mem.entries (final (Mem.execLimited 9 Mem.saveLocked)) = [("", "locked")].
Proof.
  assert (H1 : failed (Mem.execLimited 9 Mem.saveLocked) = true) by reflexivity.
  destruct (saveShared_partial_effects Mem.World (Mem.handleLimited 9) true "pod" ""
              Mem.encRef (Some {| optName := Some "locked" |}) Mem.w0 H1)
    as (Hp & _ & Hfeed & _).
  split; [exact H1|]. split; [exact Hp|]. split; [|reflexivity].
  apply (Hfeed (removelast (trace (Mem.execLimited 9 Mem.saveLocked)))
           (evOp (last (trace (Mem.execLimited 9 Mem.saveLocked))
                    (@answered Mem.imports GetUnixTimestamp 0)))
           "feed locked"); reflexivity.
Defined.

Lemma delete_removes_uploaded_entry_witness :
  failed (Mem.execFrom Mem.w5 Mem.delete5) = false
  /\ exists m,
       outcome (Mem.exec Mem.upload5) = Ok m
       /\ Mem.entries Mem.w5 = [(filePath m, fileName m)]
       /\ Mem.entries (final (Mem.execFrom Mem.w5 Mem.delete5)) = [].
Proof.
  assert (H1 : failed (Mem.execFrom Mem.w5 Mem.delete5) = false) by reflexivity.
  split; [exact H1|].
  eexists. split; [reflexivity|].
  destruct (delete_removes_uploaded_entry Mem.World Mem.handle 3 true "pod" "/a.txt"
              (PBytes Mem.bytes5) (Mem.opts 2) Mem.w0 Mem.w5 _ eq_refl H1)
    as (info & info' & _ & _).
  split; reflexivity.
Defined.
